(** * Verification of the Al-Nassr VIP cards API (netlify/functions/api.js)

    A shallow embedding of the Netlify function [exports.handler] of
    [src/netlify/functions/api.js]: the in-memory stores [orders],
    [redeemCodes] and [players], the request routing, the NOWPayments
    wrapper [nowpaymentsRequest], the IPN webhook with its HMAC-SHA512
    check, and the redeem endpoints.

    Modelling conventions.
    - JavaScript strings are [String.string] holding their UTF-8 bytes
      (what [hmac.update] hashes); a string with an unpaired surrogate,
      which has no UTF-8 form, is not represented.  [toUpperCase],
      [trim] and the order of [sort] work on the decoded code points;
      indexing a string ([s[i]], [s.length]) is exact on ASCII text.
    - A JSON number is carried by its canonical decimal form
      (Number.prototype.toString), so [===] on numbers read from JSON is
      equality of that form.
    - The request body is the result of [JSON.parse(event.body)]:
      [None] when [JSON.parse] throws.
    - The clock, [crypto.randomBytes], the locale formatters and the
      NOWPayments server are inputs of each request ([env]).
    - Thrown exceptions are the [Exn] outcome of a state-and-error monad;
      state written before a throw stays written, as with JS mutation. *)

From Stdlib Require Import ZArith List String Ascii Lia Bool.
From stdpp Require Import base gmap strings list.
Import ListNotations.
Open Scope string_scope.

(** ** SHA-512 and HMAC-SHA512 ([crypto.createHmac("sha512", key)]) *)
Module Sha512.
Open Scope list_scope.
Open Scope Z_scope.

Definition w64 (x : Z) : Z := x mod 2 ^ 64.
Definition rotr (x : Z) (n : Z) : Z :=
  Z.lor (Z.shiftr x n) (w64 (Z.shiftl x (64 - n))).
Definition lnot64 (x : Z) : Z := Z.lxor x (2 ^ 64 - 1).

Definition K : list Z := [
  4794697086780616226; 8158064640168781261; 13096744586834688815; 16840607885511220156;
  4131703408338449720; 6480981068601479193; 10538285296894168987; 12329834152419229976;
  15566598209576043074; 1334009975649890238; 2608012711638119052; 6128411473006802146;
  8268148722764581231; 9286055187155687089; 11230858885718282805; 13951009754708518548;
  16472876342353939154; 17275323862435702243; 1135362057144423861; 2597628984639134821;
  3308224258029322869; 5365058923640841347; 6679025012923562964; 8573033837759648693;
  10970295158949994411; 12119686244451234320; 12683024718118986047; 13788192230050041572;
  14330467153632333762; 15395433587784984357; 489312712824947311; 1452737877330783856;
  2861767655752347644; 3322285676063803686; 5560940570517711597; 5996557281743188959;
  7280758554555802590; 8532644243296465576; 9350256976987008742; 10552545826968843579;
  11727347734174303076; 12113106623233404929; 14000437183269869457; 14369950271660146224;
  15101387698204529176; 15463397548674623760; 17586052441742319658; 1182934255886127544;
  1847814050463011016; 2177327727835720531; 2830643537854262169; 3796741975233480872;
  4115178125766777443; 5681478168544905931; 6601373596472566643; 7507060721942968483;
  8399075790359081724; 8693463985226723168; 9568029438360202098; 10144078919501101548;
  10430055236837252648; 11840083180663258601; 13761210420658862357; 14299343276471374635;
  14566680578165727644; 15097957966210449927; 16922976911328602910; 17689382322260857208;
  500013540394364858; 748580250866718886; 1242879168328830382; 1977374033974150939;
  2944078676154940804; 3659926193048069267; 4368137639120453308; 4836135668995329356;
  5532061633213252278; 6448918945643986474; 6902733635092675308; 7801388544844847127
].

Definition H0 : list Z := [
  7640891576956012808; 13503953896175478587; 4354685564936845355;
  11912009170470909681; 5840696475078001361; 11170449401992604703;
  2270897969802886507; 6620516959819538809].

(** Big-endian packing of bytes into 64-bit words and back. *)
Definition be_word (bs : list Z) : Z :=
  fold_left (fun acc b => acc * 256 + b) bs 0.
Fixpoint words_of (n : nat) (bs : list Z) : list Z :=
  match n with
  | O => []
  | S n' => be_word (firstn 8 bs) :: words_of n' (skipn 8 bs)
  end.
Fixpoint bytes_be (n : nat) (x : Z) : list Z :=
  match n with
  | O => []
  | S n' => bytes_be n' (x / 256) ++ [x mod 256]
  end.

Definition pad (msg : list Z) : list Z :=
  let l := Z.of_nat (length msg) in
  let zeros := Z.to_nat ((111 - l) mod 128) in
  msg ++ [128] ++ repeat 0 zeros ++ bytes_be 16 (8 * l).

Definition sig0 x := Z.lxor (Z.lxor (rotr x 1) (rotr x 8)) (Z.shiftr x 7).
Definition sig1 x := Z.lxor (Z.lxor (rotr x 19) (rotr x 61)) (Z.shiftr x 6).
Definition Sig0 x := Z.lxor (Z.lxor (rotr x 28) (rotr x 34)) (rotr x 39).
Definition Sig1 x := Z.lxor (Z.lxor (rotr x 14) (rotr x 18)) (rotr x 41).

(** Message schedule: the 16 block words extended to 80. *)
Fixpoint schedule (fuel : nat) (w : list Z) : list Z :=
  match fuel with
  | O => w
  | S f =>
      let t := length w in
      let wt := w64 (nth (t - 16) w 0 + sig0 (nth (t - 15) w 0)
                     + nth (t - 7) w 0 + sig1 (nth (t - 2) w 0)) in
      schedule f (w ++ [wt])
  end.

Definition round (st : list Z) (kw : Z * Z) : list Z :=
  match st with
  | [a; b; c; d; e; f; g; h] =>
      let ch := Z.lxor (Z.land e f) (Z.land (lnot64 e) g) in
      let t1 := w64 (h + Sig1 e + ch + fst kw + snd kw) in
      let mj := Z.lxor (Z.lxor (Z.land a b) (Z.land a c)) (Z.land b c) in
      let t2 := w64 (Sig0 a + mj) in
      [w64 (t1 + t2); a; b; c; w64 (d + t1); e; f; g]
  | _ => st
  end.

Definition compress (h : list Z) (block : list Z) : list Z :=
  let w := schedule 64 (words_of 16 block) in
  let st := fold_left round (combine K w) h in
  map (fun p => w64 (fst p + snd p)) (combine h st).

Fixpoint blocks (fuel : nat) (bs : list Z) : list (list Z) :=
  match fuel, bs with
  | O, _ | _, [] => []
  | S f, _ => firstn 128 bs :: blocks f (skipn 128 bs)
  end.

Definition sha512 (msg : list Z) : list Z :=
  let p := pad msg in
  let h := fold_left compress (blocks (length p) p) H0 in
  flat_map (bytes_be 8) h.

(** HMAC with the 128-byte block of SHA-512. *)
Definition hmac (key msg : list Z) : list Z :=
  let k := if Nat.ltb 128 (length key) then sha512 key else key in
  let k := k ++ repeat 0 (128 - length k) in
  let ipad := map (Z.lxor 54) k in
  let opad := map (Z.lxor 92) k in
  sha512 (opad ++ sha512 (ipad ++ msg)).

Definition hex_digit (n : Z) : ascii :=
  ascii_of_nat (Z.to_nat (if n <? 10 then 48 + n else 87 + n)).
Definition hex_of_bytes (bs : list Z) : string :=
  fold_right (fun b s => String (hex_digit (b / 16))
                           (String (hex_digit (b mod 16)) s)) EmptyString bs.
End Sha512.

(** UTF-8 bytes of a string. *)
Definition bytes_of_string (s : string) : list Z :=
  map (fun c => Z.of_nat (nat_of_ascii c)) (list_ascii_of_string s).

(** [crypto.createHmac("sha512", key).update(msg).digest("hex")] *)
Definition hmac_sha512_hex (key msg : string) : string :=
  Sha512.hex_of_bytes (Sha512.hmac (bytes_of_string key) (bytes_of_string msg)).

(** ** UTF-8 text

    A string is held as the UTF-8 bytes of its text.  The functions below
    read the code points back, for the operations whose result depends on
    them: [toUpperCase] and the code-unit order of [Array.prototype.sort]. *)

Definition cont_byte (b : Z) : bool := ((128 <=? b) && (b <=? 191))%Z.

(** The code point and the length of the well-formed UTF-8 sequence at
    the head of [l] (Unicode Table 3-7); [None] when [l] is empty or
    starts with a byte that begins no such sequence. *)
Definition utf8_head (l : list Z) : option (Z * nat) :=
  match l with
  | [] => None
  | b0 :: r0 =>
    if b0 <? 128 then Some (b0, 1%nat)
    else match r0 with
    | [] => None
    | b1 :: r1 =>
      if (194 <=? b0) && (b0 <=? 223) && cont_byte b1
      then Some ((b0 - 192) * 64 + (b1 - 128), 2%nat)
      else match r1 with
      | [] => None
      | b2 :: r2 =>
        if (224 <=? b0) && (b0 <=? 239) && cont_byte b1 && cont_byte b2
           && (negb (b0 =? 224) || (160 <=? b1)) && (negb (b0 =? 237) || (b1 <=? 159))
        then Some (((b0 - 224) * 64 + (b1 - 128)) * 64 + (b2 - 128), 3%nat)
        else match r2 with
        | [] => None
        | b3 :: _ =>
          if (240 <=? b0) && (b0 <=? 244) && cont_byte b1 && cont_byte b2 && cont_byte b3
             && (negb (b0 =? 240) || (144 <=? b1)) && (negb (b0 =? 244) || (b1 <=? 143))
          then Some ((((b0 - 240) * 64 + (b1 - 128)) * 64 + (b2 - 128)) * 64 + (b3 - 128),
                     4%nat)
          else None
        end
      end
    end
  end%Z.

(** The text of a byte list: its code points ([inl]), with each byte that
    starts no well-formed sequence kept as it is ([inr]); text decoded
    from UTF-8 has none of the latter.  [fuel] bounds the steps; the
    length of [l] is enough. *)
Fixpoint utf8_decode (fuel : nat) (l : list Z) : list (Z + Z) :=
  match fuel with
  | O => map inr l
  | S f =>
      match l with
      | [] => []
      | b :: r =>
          match utf8_head l with
          | Some (cp, n) => inl cp :: utf8_decode f (skipn n l)
          | None => inr b :: utf8_decode f r
          end
      end
  end.

Definition code_points (s : string) : list (Z + Z) :=
  let l := bytes_of_string s in utf8_decode (length l) l.

(** The UTF-16 code units of a code point. *)
Definition utf16_of_cp (cp : Z) : list Z :=
  (if cp <? 65536 then [cp]
   else [55296 + (cp - 65536) / 1024; 56320 + (cp - 65536) mod 1024])%Z.

(** The UTF-16 code units of a string (a byte outside any UTF-8 sequence,
    which no decoded text holds, counts as one unit). *)
Definition utf16_units (s : string) : list Z :=
  flat_map (fun x => match x with inl cp => utf16_of_cp cp | inr b => [b] end) (code_points s).

(** [a <= b] in the lexicographic order of code-unit sequences. *)
Fixpoint units_leb (a b : list Z) : bool :=
  match a, b with
  | [], _ => true
  | _ :: _, [] => false
  | x :: a', y :: b' => ((x <? y) || ((x =? y) && units_leb a' b'))%Z
  end.

(** ** JavaScript values *)

Set Warnings "-register-all".

(** A value as the handler sees it after [JSON.parse], plus [undefined].
    [JObj] lists the own properties in creation order. *)
Inductive jsval : Type :=
| JUndef
| JNull
| JBool (b : bool)
| JNum (repr : string)
| JStr (s : string)
| JArr (xs : list jsval)
| JObj (props : list (string * jsval)).

(** ToBoolean. *)
Definition truthy (v : jsval) : bool :=
  match v with
  | JUndef | JNull => false
  | JBool b => b
  | JNum r => negb (String.eqb r "0" || String.eqb r "NaN")
  | JStr s => negb (String.eqb s "")
  | JArr _ | JObj _ => true
  end.

(** [a || b] *)
Definition js_or (a b : jsval) : jsval := if truthy a then a else b.

(** [===] where one side is a primitive, which is the case at every use
    in the handler; two distinct objects are never [===]. *)
Definition js_strict_eq (a b : jsval) : bool :=
  match a, b with
  | JUndef, JUndef | JNull, JNull => true
  | JBool x, JBool y => Bool.eqb x y
  | JNum x, JNum y => String.eqb x y
  | JStr x, JStr y => String.eqb x y
  | _, _ => false
  end.

(** Decimal form of an integer, as [`${n}`] prints it. *)
Definition digit_char (d : Z) : ascii := ascii_of_nat (48 + Z.to_nat d).
Fixpoint dec_digits (fuel : nat) (n : Z) (acc : string) : string :=
  match fuel with
  | O => acc
  | S f =>
      let acc' := String (digit_char (n mod 10)) acc in
      if (n <? 10)%Z then acc' else dec_digits f (n / 10)%Z acc'
  end.
Definition dec (z : Z) : string :=
  match z with
  | Z0 => "0"
  | Zpos p => dec_digits (Pos.size_nat p) (Zpos p) ""
  | Zneg p => "-" ++ dec_digits (Pos.size_nat p) (Zpos p) ""
  end.

(** Array index keys: canonical decimal strings of 0 .. 2^32 - 2. *)
Definition is_digit (c : ascii) : bool :=
  Nat.leb 48 (nat_of_ascii c) && Nat.leb (nat_of_ascii c) 57.
Fixpoint digits_value (s : string) (acc : N) : option N :=
  match s with
  | EmptyString => Some acc
  | String c s' =>
      if is_digit c then digits_value s' (acc * 10 + N.of_nat (nat_of_ascii c) - 48)%N
      else None
  end.
Definition array_index (k : string) : option N :=
  match k with
  | String "0" EmptyString => Some 0%N
  | String c _ =>
      if is_digit c && negb (Ascii.eqb c "0") then
        match digits_value k 0 with
        | Some n => if (n <=? 4294967294)%N then Some n else None
        | None => None
        end
      else None
  | EmptyString => None
  end.

(** Insertion sorts: numeric for index keys, and [Array.prototype.sort]
    with no comparator (the order of the UTF-16 code units). *)
Fixpoint insert_by {A} (le : A -> A -> bool) (x : A) (l : list A) : list A :=
  match l with
  | [] => [x]
  | y :: l' => if le x y then x :: y :: l' else y :: insert_by le x l'
  end.
Definition sort_by {A} (le : A -> A -> bool) (l : list A) : list A :=
  fold_right (insert_by le) [] l.
Definition index_le (a b : string) : bool :=
  match array_index a, array_index b with
  | Some x, Some y => (x <=? y)%N
  | _, _ => true
  end.
Definition js_sort (ks : list string) : list string :=
  sort_by (fun a b => units_leb (utf16_units a) (utf16_units b)) ks.

(** OrdinaryOwnPropertyKeys: array-index keys ascending, then the other
    keys in creation order. *)
Definition ordered_keys (ks : list string) : list string :=
  sort_by index_le (List.filter (fun k => if array_index k then true else false) ks)
  ++ List.filter (fun k => if array_index k then false else true) ks.

(** Keys of a property list, first occurrence kept. *)
Fixpoint dedup (ks : list string) : list string :=
  match ks with
  | [] => []
  | k :: ks' => k :: List.filter (fun k' => negb (String.eqb k k')) (dedup ks')
  end.

Fixpoint assoc (k : string) (props : list (string * jsval)) : option jsval :=
  match props with
  | [] => None
  | (k', v) :: ps => if String.eqb k k' then Some v else assoc k ps
  end.

Definition string_chars (s : string) : list jsval :=
  map (fun c => JStr (String c EmptyString)) (list_ascii_of_string s).

Fixpoint range_keys (i n : nat) : list string :=
  match n with
  | O => []
  | S n' => dec (Z.of_nat i) :: range_keys (S i) n'
  end.

(** Property read [v[k]]; [None] is the TypeError of reading a property
    of [null] or [undefined]. *)
Definition get_prop (v : jsval) (k : string) : option jsval :=
  match v with
  | JUndef | JNull => None
  | JObj ps => Some (default JUndef (assoc k ps))
  | JArr xs =>
      if String.eqb k "length" then Some (JNum (dec (Z.of_nat (length xs))))
      else match array_index k with
           | Some n => Some (default JUndef (nth_error xs (N.to_nat n)))
           | None => Some JUndef
           end
  | JStr s =>
      if String.eqb k "length" then Some (JNum (dec (Z.of_nat (String.length s))))
      else match array_index k with
           | Some n => Some (default JUndef (nth_error (string_chars s) (N.to_nat n)))
           | None => Some JUndef
           end
  | JBool _ | JNum _ => Some JUndef
  end.

(** [Object.keys(v)]; [None] is the TypeError on [null]/[undefined]. *)
Definition object_keys (v : jsval) : option (list string) :=
  match v with
  | JUndef | JNull => None
  | JObj ps => Some (ordered_keys (dedup (map fst ps)))
  | JArr xs => Some (range_keys 0 (length xs))
  | JStr s => Some (range_keys 0 (String.length s))
  | JBool _ | JNum _ => Some []
  end.

(** Property write [obj[k] = v] on an ordinary object: an existing key
    keeps its place, a new key is added last. *)
Fixpoint set_prop (ps : list (string * jsval)) (k : string) (v : jsval)
  : list (string * jsval) :=
  match ps with
  | [] => [(k, v)]
  | (k', v') :: ps' =>
      if String.eqb k k' then (k', v) :: ps' else (k', v') :: set_prop ps' k v
  end.

(** ** [JSON.stringify] *)

Definition hex_lower (n : nat) : ascii :=
  ascii_of_nat (if Nat.ltb n 10 then 48 + n else 87 + n).

(** QuoteJSONString, byte by byte; bytes of multi-byte UTF-8 characters
    are copied unchanged. *)
Fixpoint json_escape (s : string) : string :=
  match s with
  | EmptyString => EmptyString
  | String c s' =>
      let n := nat_of_ascii c in
      let e :=
        if Nat.eqb n 34 then String "092" (String "034" EmptyString)
        else if Nat.eqb n 92 then "\\"
        else if Nat.eqb n 8 then "\b"
        else if Nat.eqb n 12 then "\f"
        else if Nat.eqb n 10 then "\n"
        else if Nat.eqb n 13 then "\r"
        else if Nat.eqb n 9 then "\t"
        else if Nat.ltb n 32 then
          String "\" (String "u" (String "0" (String "0"
            (String (hex_lower (n / 16)) (String (hex_lower (n mod 16)) EmptyString)))))
        else String c EmptyString in
      e ++ json_escape s'
  end.
Definition json_quote (s : string) : string := String "034" (json_escape s) ++ String "034" EmptyString.

Definition json_number (r : string) : string :=
  if String.eqb r "NaN" || String.eqb r "Infinity" || String.eqb r "-Infinity"
  then "null" else r.

(** SerializeJSONProperty; [None] when the value serializes to
    [undefined]. Object members come out in OrdinaryOwnPropertyKeys
    order and members whose value is [undefined] are skipped. *)
Fixpoint json_stringify (v : jsval) : option string :=
  match v with
  | JUndef => None
  | JNull => Some "null"
  | JBool b => Some (if b then "true" else "false")
  | JNum r => Some (json_number r)
  | JStr s => Some (json_quote s)
  | JArr xs =>
      let fix items (l : list jsval) : list string :=
        match l with
        | [] => []
        | x :: l' => default "null" (json_stringify x) :: items l'
        end in
      Some ("[" ++ String.concat "," (items xs) ++ "]")
  | JObj ps =>
      let fix members (l : list (string * jsval)) : list (string * option string) :=
        match l with
        | [] => []
        | (k, x) :: l' => (k, json_stringify x) :: members l'
        end in
      let ms := members ps in
      let field k :=
        match List.fold_right (fun kv acc =>
                 if String.eqb k (fst kv) then Some (snd kv) else acc) None ms with
        | Some (Some s) => [json_quote k ++ ":" ++ s]
        | _ => []
        end in
      Some ("{" ++ String.concat "," (flat_map field (ordered_keys (dedup (map fst ps))))
            ++ "}")
  end.

(** ** String operations used by the handler *)

Definition string_of_bytes (bs : list Z) : string :=
  string_of_list_ascii (map (fun b => ascii_of_nat (Z.to_nat b)) bs).

(** *** [String.prototype.toUpperCase] *)

Definition utf8_encode (cp : Z) : list Z :=
  (if cp <? 128 then [cp]
   else if cp <? 2048 then [192 + cp / 64; 128 + cp mod 64]
   else if cp <? 65536 then [224 + cp / 4096; 128 + (cp / 64) mod 64; 128 + cp mod 64]
   else [240 + cp / 262144; 128 + (cp / 4096) mod 64; 128 + (cp / 64) mod 64; 128 + cp mod 64])%Z.

(** The full uppercase mapping of Unicode 14.0: the simple mappings of
    UnicodeData.txt and the unconditional, language-independent entries
    of SpecialCasing.txt, which is what [toUpperCase] applies.  The
    one-to-one mappings come as runs [(first, count, stride, delta)]: the
    [count] code points [first], [first + stride], ... map to themselves
    plus [delta]. *)
Definition upper_runs : list (Z * Z * Z * Z) := [
  (97, 26, 1, -32); (181, 1, 1, 743); (224, 23, 1, -32); (248, 7, 1, -32); (255, 1, 1, 121);
  (257, 24, 2, -1); (305, 1, 1, -232); (307, 3, 2, -1); (314, 8, 2, -1); (331, 23, 2, -1);
  (378, 3, 2, -1); (383, 1, 1, -300); (384, 1, 1, 195); (387, 2, 2, -1); (392, 1, 1, -1);
  (396, 1, 1, -1); (402, 1, 1, -1); (405, 1, 1, 97); (409, 1, 1, -1); (410, 1, 1, 163);
  (414, 1, 1, 130); (417, 3, 2, -1); (424, 1, 1, -1); (429, 1, 1, -1); (432, 1, 1, -1);
  (436, 2, 2, -1); (441, 1, 1, -1); (445, 1, 1, -1); (447, 1, 1, 56); (453, 1, 1, -1);
  (454, 1, 1, -2); (456, 1, 1, -1); (457, 1, 1, -2); (459, 1, 1, -1); (460, 1, 1, -2);
  (462, 8, 2, -1); (477, 1, 1, -79); (479, 9, 2, -1); (498, 1, 1, -1); (499, 1, 1, -2);
  (501, 1, 1, -1); (505, 20, 2, -1); (547, 9, 2, -1); (572, 1, 1, -1); (575, 2, 1, 10815);
  (578, 1, 1, -1); (583, 5, 2, -1); (592, 1, 1, 10783); (593, 1, 1, 10780); (594, 1, 1, 10782);
  (595, 1, 1, -210); (596, 1, 1, -206); (598, 2, 1, -205); (601, 1, 1, -202);
  (603, 1, 1, -203); (604, 1, 1, 42319); (608, 1, 1, -205); (609, 1, 1, 42315);
  (611, 1, 1, -207); (613, 1, 1, 42280); (614, 1, 1, 42308); (616, 1, 1, -209);
  (617, 1, 1, -211); (618, 1, 1, 42308); (619, 1, 1, 10743); (620, 1, 1, 42305);
  (623, 1, 1, -211); (625, 1, 1, 10749); (626, 1, 1, -213); (629, 1, 1, -214);
  (637, 1, 1, 10727); (640, 1, 1, -218); (642, 1, 1, 42307); (643, 1, 1, -218);
  (647, 1, 1, 42282); (648, 1, 1, -218); (649, 1, 1, -69); (650, 2, 1, -217); (652, 1, 1, -71);
  (658, 1, 1, -219); (669, 1, 1, 42261); (670, 1, 1, 42258); (837, 1, 1, 84); (881, 2, 2, -1);
  (887, 1, 1, -1); (891, 3, 1, 130); (940, 1, 1, -38); (941, 3, 1, -37); (945, 17, 1, -32);
  (962, 1, 1, -31); (963, 9, 1, -32); (972, 1, 1, -64); (973, 2, 1, -63); (976, 1, 1, -62);
  (977, 1, 1, -57); (981, 1, 1, -47); (982, 1, 1, -54); (983, 1, 1, -8); (985, 12, 2, -1);
  (1008, 1, 1, -86); (1009, 1, 1, -80); (1010, 1, 1, 7); (1011, 1, 1, -116); (1013, 1, 1, -96);
  (1016, 1, 1, -1); (1019, 1, 1, -1); (1072, 32, 1, -32); (1104, 16, 1, -80);
  (1121, 17, 2, -1); (1163, 27, 2, -1); (1218, 7, 2, -1); (1231, 1, 1, -15); (1233, 48, 2, -1);
  (1377, 38, 1, -48); (4304, 43, 1, 3008); (4349, 3, 1, 3008); (5112, 6, 1, -8);
  (7296, 1, 1, -6254); (7297, 1, 1, -6253); (7298, 1, 1, -6244); (7299, 2, 1, -6242);
  (7301, 1, 1, -6243); (7302, 1, 1, -6236); (7303, 1, 1, -6181); (7304, 1, 1, 35266);
  (7545, 1, 1, 35332); (7549, 1, 1, 3814); (7566, 1, 1, 35384); (7681, 75, 2, -1);
  (7835, 1, 1, -59); (7841, 48, 2, -1); (7936, 8, 1, 8); (7952, 6, 1, 8); (7968, 8, 1, 8);
  (7984, 8, 1, 8); (8000, 6, 1, 8); (8017, 4, 2, 8); (8032, 8, 1, 8); (8048, 2, 1, 74);
  (8050, 4, 1, 86); (8054, 2, 1, 100); (8056, 2, 1, 128); (8058, 2, 1, 112); (8060, 2, 1, 126);
  (8112, 2, 1, 8); (8126, 1, 1, -7205); (8144, 2, 1, 8); (8160, 2, 1, 8); (8165, 1, 1, 7);
  (8526, 1, 1, -28); (8560, 16, 1, -16); (8580, 1, 1, -1); (9424, 26, 1, -26);
  (11312, 48, 1, -48); (11361, 1, 1, -1); (11365, 1, 1, -10795); (11366, 1, 1, -10792);
  (11368, 3, 2, -1); (11379, 1, 1, -1); (11382, 1, 1, -1); (11393, 50, 2, -1);
  (11500, 2, 2, -1); (11507, 1, 1, -1); (11520, 38, 1, -7264); (11559, 1, 1, -7264);
  (11565, 1, 1, -7264); (42561, 23, 2, -1); (42625, 14, 2, -1); (42787, 7, 2, -1);
  (42803, 31, 2, -1); (42874, 2, 2, -1); (42879, 5, 2, -1); (42892, 1, 1, -1);
  (42897, 2, 2, -1); (42900, 1, 1, 48); (42903, 10, 2, -1); (42933, 8, 2, -1);
  (42952, 2, 2, -1); (42961, 1, 1, -1); (42967, 2, 2, -1); (42998, 1, 1, -1);
  (43859, 1, 1, -928); (43888, 80, 1, -38864); (65345, 26, 1, -32); (66600, 40, 1, -40);
  (66776, 36, 1, -40); (66967, 11, 1, -39); (66979, 15, 1, -39); (66995, 7, 1, -39);
  (67003, 2, 1, -39); (68800, 51, 1, -64); (71872, 32, 1, -32); (93792, 32, 1, -32);
  (125218, 34, 1, -34)]%Z.

Definition upper_special : list (Z * list Z) := [
  (223, [83; 83]); (329, [700; 78]); (496, [74; 780]); (912, [921; 776; 769]);
  (944, [933; 776; 769]); (1415, [1333; 1362]); (7830, [72; 817]); (7831, [84; 776]);
  (7832, [87; 778]); (7833, [89; 778]); (7834, [65; 702]); (8016, [933; 787]);
  (8018, [933; 787; 768]); (8020, [933; 787; 769]); (8022, [933; 787; 834]);
  (8064, [7944; 921]); (8065, [7945; 921]); (8066, [7946; 921]); (8067, [7947; 921]);
  (8068, [7948; 921]); (8069, [7949; 921]); (8070, [7950; 921]); (8071, [7951; 921]);
  (8072, [7944; 921]); (8073, [7945; 921]); (8074, [7946; 921]); (8075, [7947; 921]);
  (8076, [7948; 921]); (8077, [7949; 921]); (8078, [7950; 921]); (8079, [7951; 921]);
  (8080, [7976; 921]); (8081, [7977; 921]); (8082, [7978; 921]); (8083, [7979; 921]);
  (8084, [7980; 921]); (8085, [7981; 921]); (8086, [7982; 921]); (8087, [7983; 921]);
  (8088, [7976; 921]); (8089, [7977; 921]); (8090, [7978; 921]); (8091, [7979; 921]);
  (8092, [7980; 921]); (8093, [7981; 921]); (8094, [7982; 921]); (8095, [7983; 921]);
  (8096, [8040; 921]); (8097, [8041; 921]); (8098, [8042; 921]); (8099, [8043; 921]);
  (8100, [8044; 921]); (8101, [8045; 921]); (8102, [8046; 921]); (8103, [8047; 921]);
  (8104, [8040; 921]); (8105, [8041; 921]); (8106, [8042; 921]); (8107, [8043; 921]);
  (8108, [8044; 921]); (8109, [8045; 921]); (8110, [8046; 921]); (8111, [8047; 921]);
  (8114, [8122; 921]); (8115, [913; 921]); (8116, [902; 921]); (8118, [913; 834]);
  (8119, [913; 834; 921]); (8124, [913; 921]); (8130, [8138; 921]); (8131, [919; 921]);
  (8132, [905; 921]); (8134, [919; 834]); (8135, [919; 834; 921]); (8140, [919; 921]);
  (8146, [921; 776; 768]); (8147, [921; 776; 769]); (8150, [921; 834]);
  (8151, [921; 776; 834]); (8162, [933; 776; 768]); (8163, [933; 776; 769]);
  (8164, [929; 787]); (8166, [933; 834]); (8167, [933; 776; 834]); (8178, [8186; 921]);
  (8179, [937; 921]); (8180, [911; 921]); (8182, [937; 834]); (8183, [937; 834; 921]);
  (8188, [937; 921]); (64256, [70; 70]); (64257, [70; 73]); (64258, [70; 76]);
  (64259, [70; 70; 73]); (64260, [70; 70; 76]); (64261, [83; 84]); (64262, [83; 84]);
  (64275, [1348; 1350]); (64276, [1348; 1333]); (64277, [1348; 1339]); (64278, [1358; 1350]);
  (64279, [1348; 1341])]%Z.

Definition upper_cp (cp : Z) : list Z :=
  match List.find (fun e => Z.eqb (fst e) cp) upper_special with
  | Some (_, us) => us
  | None =>
      match List.find (fun '(f, n, st, _) =>
                         (f <=? cp) && (cp <? f + n * st) && ((cp - f) mod st =? 0))
                      upper_runs with
      | Some (_, _, _, d) => [cp + d]
      | None => [cp]
      end
  end%Z.

Definition upper_item (x : Z + Z) : list Z :=
  match x with
  | inl cp => flat_map utf8_encode (upper_cp cp)
  | inr b => [b]
  end.

(** [String.prototype.toUpperCase]: every code point replaced by its
    full uppercase mapping. *)
Definition js_to_upper (s : string) : string :=
  string_of_bytes (flat_map upper_item (code_points s)).

(** The mapping on one ASCII character (what [js_to_upper] does on ASCII
    text, as the proofs show). *)
Definition upper_char (c : ascii) : ascii :=
  let n := nat_of_ascii c in
  if Nat.leb 97 n && Nat.leb n 122 then ascii_of_nat (n - 32) else c.

(** The UTF-8 encodings of the WhiteSpace and LineTerminator code points
    that [String.prototype.trim] removes. *)
Definition js_whitespace : list (list Z) :=
  [[9]; [10]; [11]; [12]; [13]; [32]; [194; 160]; [225; 154; 128];
   [226; 128; 128]; [226; 128; 129]; [226; 128; 130]; [226; 128; 131];
   [226; 128; 132]; [226; 128; 133]; [226; 128; 134]; [226; 128; 135];
   [226; 128; 136]; [226; 128; 137]; [226; 128; 138]; [226; 128; 168];
   [226; 128; 169]; [226; 128; 175]; [226; 129; 159]; [227; 128; 128];
   [239; 187; 191]]%Z.

Fixpoint bytes_prefix (p l : list Z) : bool :=
  match p, l with
  | [], _ => true
  | x :: p', y :: l' => Z.eqb x y && bytes_prefix p' l'
  | _ :: _, [] => false
  end.

(** Length of the first pattern of [pats] that starts [l], 0 if none. *)
Definition ws_head (pats : list (list Z)) (l : list Z) : nat :=
  match List.find (fun w => bytes_prefix w l) pats with
  | Some w => length w
  | None => O
  end.

Fixpoint strip_ws (pats : list (list Z)) (fuel : nat) (l : list Z) : list Z :=
  match fuel with
  | O => l
  | S f => match ws_head pats l with
           | O => l
           | n => strip_ws pats f (skipn n l)
           end
  end.

(** [String.prototype.trim]: leading whitespace is stripped from the
    bytes, trailing whitespace from the reversed bytes against the
    reversed encodings. *)
Definition js_trim (s : string) : string :=
  let l := bytes_of_string s in
  let l1 := strip_ws js_whitespace (length l) l in
  string_of_bytes (rev (strip_ws (map (@rev Z) js_whitespace) (length l1) (rev l1))).

(** [s.startsWith(p)] *)
Definition starts_with (p s : string) : bool := String.prefix p s.

(** [s.replace(pat, rep)] with a string pattern: the first occurrence. *)
Definition replace_first (pat rep s : string) : string :=
  match String.index 0 pat s with
  | Some i => String.substring 0 i s ++ rep
              ++ String.substring (i + String.length pat)
                   (String.length s - (i + String.length pat)) s
  | None => s
  end.

(** [s.replace(/^prefix/, rep)] *)
Definition replace_anchored (pat rep s : string) : string :=
  if String.prefix pat s
  then rep ++ String.substring (String.length pat) (String.length s - String.length pat) s
  else s.

(** [s.replace(/^\/+/, "")] *)
Fixpoint strip_slashes (s : string) : string :=
  match s with
  | String "/" s' => strip_slashes s'
  | _ => s
  end.

(** [s.split("/")] *)
Fixpoint split_slash (s : string) : list string :=
  match s with
  | EmptyString => [""]
  | String "/" s' => "" :: split_slash s'
  | String c s' =>
      match split_slash s' with
      | w :: ws => String c w :: ws
      | [] => [String c EmptyString]
      end
  end.

(** [bytes.toString("hex")] *)
Definition hex_of_bytes (bs : list Z) : string := Sha512.hex_of_bytes bs.

(** ** Data model *)

(** An element of [players]. [btc] is a JS number, kept in its decimal
    form. *)
Record player := {
  p_id : Z;
  p_name : string;
  p_nameEn : string;
  p_price : Z;
  p_btc : string;
  p_sold : bool
}.

(** A value of the [redeemCodes] map. [txId] and [email] are absent
    until the handler adds them at redemption. *)
Record redeem_rec := {
  rc_playerId : Z;
  rc_playerName : string;
  rc_playerNameEn : string;
  rc_sats : Z;
  rc_redeemed : bool;
  rc_redeemedAt : jsval;
  rc_redeemedTo : jsval;
  rc_txId : option string;
  rc_email : option jsval
}.

(** An order is a plain JS object stored in the [orders] map. *)
Abbreviation order := (list (string * jsval)).

(** An outbound [fetch] to NOWPayments. *)
Record gw_request := {
  gr_method : string;
  gr_url : string;
  gr_body : option jsval
}.

(** What [fetch] and [response.json()] give back: a transport failure,
    or a status code with the parsed body ([None] when it is not JSON). *)
Inductive gw_response :=
| GwNetworkError (msg : string)
| GwReply (status : Z) (json : option jsval).

(** The module-level state of the function instance; [gw_calls] records
    every outbound request in order. *)
Record state := {
  orders : gmap string order;
  redeemCodes : gmap string redeem_rec;
  players : list player;
  gw_calls : list gw_request
}.

(** [process.env] as read at module load. An unset variable is [None];
    a set but empty one is [Some ""]. *)
Record config := {
  NOWPAYMENTS_API_KEY : option string;
  NOWPAYMENTS_IPN_SECRET : option string;
  IS_PRODUCTION : bool
}.

(** What a single invocation reads from its surroundings: [Date.now()],
    [new Date().toISOString()], [crypto.randomBytes(4)], the NOWPayments
    server, [toLocaleDateString("ar-SA")] and [toLocaleString()]. *)
Record env := {
  now_ms : Z;
  now_iso : string;
  random4 : list Z;
  gateway : gw_request -> gw_response;
  fmt_date_ar_sa : jsval -> string;
  fmt_num : Z -> string
}.

(** The Netlify [event]. [ev_body] is the result of
    [JSON.parse(event.body)], [None] when that throws. *)
Record event := {
  httpMethod : string;
  ev_path : option string;
  ev_rawUrl : option string;
  ev_headers : list (string * string);
  ev_query : option (list (string * string));
  ev_body : option jsval
}.

(** [respond(statusCode, body)]; the CORS headers are the same constant
    for every response and are left out. *)
Record response := {
  statusCode : Z;
  body : jsval
}.

Definition respond (code : Z) (b : jsval) : response :=
  {| statusCode := code; body := b |}.

(** ** Seed data *)

Definition mk_player id name nameEn price btc sold : player :=
  {| p_id := id; p_name := name; p_nameEn := nameEn; p_price := price;
     p_btc := btc; p_sold := sold |}.

Definition players0 : list player := [
  mk_player 1 "كريستيانو رونالدو" "Cristiano Ronaldo" 189999 "0.75" false;
  mk_player 2 "ساديو ماني" "Sadio Mané" 129999 "0.52" false;
  mk_player 3 "ايمريك لابورت" "Aymeric Laporte" 99999 "0.27" true;
  mk_player 4 "مارسيلو بروزوفيتش" "Marcelo Brozović" 74999 "0.21" false;
  mk_player 5 "أليكس تيليس" "Alex Telles" 59999 "0.16" true;
  mk_player 6 "سيكو فوفانا" "Seko Fofana" 39999 "0.11" false]%Z.

Definition mk_code pid name nameEn sats : redeem_rec :=
  {| rc_playerId := pid; rc_playerName := name; rc_playerNameEn := nameEn;
     rc_sats := sats; rc_redeemed := false; rc_redeemedAt := JNull;
     rc_redeemedTo := JNull; rc_txId := None; rc_email := None |}.

Definition seed_codes : list (string * redeem_rec) := [
  ("NASSR-R7CR-GOLD-2025", mk_code 1 "كريستيانو رونالدو" "Cristiano Ronaldo" 5200000);
  ("NASSR-MANE-STAR-2025", mk_code 2 "ساديو ماني" "Sadio Mané" 3600000);
  ("NASSR-LAPO-DFND-2025", mk_code 3 "ايمريك لابورت" "Aymeric Laporte" 2700000);
  ("NASSR-BROZ-MIDX-2025", mk_code 4 "مارسيلو بروزوفيتش" "Marcelo Brozović" 2100000);
  ("NASSR-TELL-WING-2025", mk_code 5 "أليكس تيليس" "Alex Telles" 1600000);
  ("NASSR-FOFA-POWR-2025", mk_code 6 "سيكو فوفانا" "Seko Fofana" 1100000)]%Z.

Definition redeemCodes0 : gmap string redeem_rec := list_to_map seed_codes.

(** The state at module load. *)
Definition state0 : state :=
  {| orders := ∅; redeemCodes := redeemCodes0; players := players0; gw_calls := [] |}.

(** ** The handler's monad: state passing with thrown errors *)

Inductive outcome (A : Type) :=
| Ok (a : A)
| Exn (msg : string).
Arguments Ok {A} a.
Arguments Exn {A} msg.

Definition M (A : Type) : Type := state -> outcome A * state.

Definition ret {A} (a : A) : M A := fun s => (Ok a, s).
Definition bind {A B} (m : M A) (k : A -> M B) : M B :=
  fun s => match m s with
           | (Ok a, s') => k a s'
           | (Exn e, s') => (Exn e, s')
           end.
Definition throw {A} (msg : string) : M A := fun s => (Exn msg, s).
Definition get_state : M state := fun s => (Ok s, s).
Definition modify (f : state -> state) : M unit := fun s => (Ok tt, f s).

Notation "'let!' x := m 'in' k" := (bind m (fun x => k))
  (at level 200, x name, m at level 100, k at level 200).

(** [try { m } catch (e) { h(e.message) }] *)
Definition try_catch {A} (m : M A) (h : string -> M A) : M A :=
  fun s => match m s with
           | (Ok a, s') => (Ok a, s')
           | (Exn e, s') => h e s'
           end.

(** A property read that throws on [null]/[undefined]. *)
Definition prop (v : jsval) (k : string) : M jsval :=
  match get_prop v k with
  | Some x => ret x
  | None => throw ("Cannot read properties of " ++
                   (match v with JNull => "null" | _ => "undefined" end) ++
                   " (reading '" ++ k ++ "')")
  end.

(** [JSON.parse(event.body)] *)
Definition parse_body (ev : event) : M jsval :=
  match ev_body ev with
  | Some v => ret v
  | None => throw "Unexpected token in JSON"
  end.

(** ** Helpers of the handler *)

(** ToString on the values that reach a template literal or [Error]. *)
Fixpoint js_to_string (v : jsval) : string :=
  match v with
  | JUndef => "undefined"
  | JNull => "null"
  | JBool b => if b then "true" else "false"
  | JNum r => r
  | JStr s => s
  | JArr xs =>
      let fix items (l : list jsval) : list string :=
        match l with
        | [] => []
        | (JUndef | JNull) :: l' => "" :: items l'
        | x :: l' => js_to_string x :: items l'
        end in
      String.concat "," (items xs)
  | JObj _ => "[object Object]"
  end.

(** [a || b] on optional strings (an absent or empty string is falsy). *)
Definition str_or (a : option string) (b : string) : string :=
  match a with
  | Some s => if String.eqb s "" then b else s
  | None => b
  end.

Definition env_set (v : option string) : bool :=
  match v with Some s => negb (String.eqb s "") | None => false end.

Fixpoint lookup_str (k : string) (l : list (string * string)) : option string :=
  match l with
  | [] => None
  | (k', v) :: l' => if String.eqb k k' then Some v else lookup_str k l'
  end.

Definition header (ev : event) (k : string) : option string := lookup_str k (ev_headers ev).

Definition NOWPAYMENTS_BASE (cfg : config) : string :=
  if IS_PRODUCTION cfg then "https://api.nowpayments.io/v1"
  else "https://api-sandbox.nowpayments.io/v1".

(** [players.find((p) => p.id === v)] *)
Definition find_player (v : jsval) (ps : list player) : option player :=
  List.find (fun p => js_strict_eq (JNum (dec (p_id p))) v) ps.

(** [const player = players.find((p) => p.id === v); if (player) player.sold = true;] *)
Fixpoint mark_sold (v : jsval) (ps : list player) : list player :=
  match ps with
  | [] => []
  | p :: ps' =>
      if js_strict_eq (JNum (dec (p_id p))) v
      then {| p_id := p_id p; p_name := p_name p; p_nameEn := p_nameEn p;
              p_price := p_price p; p_btc := p_btc p; p_sold := true |} :: ps'
      else p :: mark_sold v ps'
  end.

Definition player_json (p : player) : jsval :=
  JObj [("id", JNum (dec (p_id p))); ("name", JStr (p_name p));
        ("nameEn", JStr (p_nameEn p)); ("price", JNum (dec (p_price p)));
        ("btc", JNum (p_btc p)); ("sold", JBool (p_sold p))].

Definition set_orders (o : gmap string order) (s : state) : state :=
  {| orders := o; redeemCodes := redeemCodes s; players := players s; gw_calls := gw_calls s |}.
Definition set_codes (c : gmap string redeem_rec) (s : state) : state :=
  {| orders := orders s; redeemCodes := c; players := players s; gw_calls := gw_calls s |}.
Definition set_players (ps : list player) (s : state) : state :=
  {| orders := orders s; redeemCodes := redeemCodes s; players := ps; gw_calls := gw_calls s |}.
Definition log_call (r : gw_request) (s : state) : state :=
  {| orders := orders s; redeemCodes := redeemCodes s; players := players s;
     gw_calls := gw_calls s ++ [r] |}.

(** ** [nowpaymentsRequest(endpoint, method, body)] *)
Definition nowpaymentsRequest (cfg : config) (en : env) (endpoint method : string)
    (b : option jsval) : M jsval :=
  if negb (env_set (NOWPAYMENTS_API_KEY cfg)) then
    throw "NOWPAYMENTS_API_KEY is not configured on the server. Set it in Netlify dashboard → Site settings → Environment variables."
  else
    let req := {| gr_method := method; gr_url := NOWPAYMENTS_BASE cfg ++ endpoint;
                  gr_body := b |} in
    let! _ := modify (log_call req) in
    match gateway en req with
    | GwNetworkError m => throw ("Network error calling NOWPayments: " ++ m)
    | GwReply st None =>
        throw ("NOWPayments returned invalid JSON (status " ++ dec st ++ ")")
    | GwReply st (Some data) =>
        if ((200 <=? st) && (st <=? 299))%Z then ret data
        else
          let! m := prop data "message" in
          throw (if truthy m then js_to_string m
                 else "NOWPayments API error: " ++ dec st)
    end.

(** The [path] computed at the top of the handler. *)
Definition resolve_path (ev : event) : string :=
  let rawPath := str_or (ev_path ev) (str_or (ev_rawUrl ev) "") in
  strip_slashes (replace_anchored "/api/" "/"
                   (replace_first "/.netlify/functions/api" "" rawPath)).

(** [path.split("/")[1]] in a template literal. *)
Definition second_segment (path : string) : string :=
  match nth_error (split_slash path) 1 with
  | Some s => s
  | None => "undefined"
  end.

(** ** Route handlers *)

Definition err (code : Z) (msg : string) : response :=
  respond code (JObj [("error", JStr msg)]).

(** [`NASSR-${Date.now()}-${player.id}`] *)
Definition make_order_id (now : Z) (p : player) : string :=
  "NASSR-" ++ dec now ++ "-" ++ dec (p_id p).

Definition ipn_callback (ev : event) : string :=
  let host := str_or (header ev "host") "localhost" in
  let proto := str_or (header ev "x-forwarded-proto") "https" in
  proto ++ "://" ++ host.

Definition order_description (p : player) : string :=
  "Al-Nassr VIP Card: " ++ p_nameEn p ++ " (PSA 10)".

(** [!customer || !customer.email] *)
Definition customer_missing (customer : jsval) : M bool :=
  if truthy customer then
    let! e := prop customer "email" in ret (negb (truthy e))
  else ret true.

(** POST /api/create-payment *)
Definition create_payment (cfg : config) (en : env) (ev : event) : M response :=
  let! b := parse_body ev in
  let! playerId := prop b "playerId" in
  let! currency := prop b "currency" in
  let! redeemOption := prop b "redeemOption" in
  let! customer := prop b "customer" in
  let! s := get_state in
  match find_player playerId (players s) with
  | None => ret (err 404 "Card not found")
  | Some p =>
    if p_sold p then ret (err 400 "Card already sold") else
    if negb (truthy currency) then ret (err 400 "Currency is required") else
    let! missing := customer_missing customer in
    if missing then ret (err 400 "Customer email is required") else
    let orderId := make_order_id (now_ms en) p in
    let base := ipn_callback ev in
    let! paymentData := nowpaymentsRequest cfg en "/payment" "POST" (Some (JObj [
        ("price_amount", JNum (dec (p_price p))); ("price_currency", JStr "sar");
        ("pay_currency", currency); ("order_id", JStr orderId);
        ("order_description", JStr (order_description p));
        ("ipn_callback_url", JStr (base ++ "/api/ipn"))])) in
    let! pay_amount := prop paymentData "pay_amount" in
    let! pay_address := prop paymentData "pay_address" in
    let! payment_id := prop paymentData "payment_id" in
    let! payment_status := prop paymentData "payment_status" in
    let record : order :=
      [("orderId", JStr orderId); ("playerId", JNum (dec (p_id p)));
       ("playerName", JStr (p_nameEn p)); ("priceAmount", JNum (dec (p_price p)));
       ("payCurrency", currency); ("payAmount", pay_amount);
       ("payAddress", pay_address); ("paymentId", payment_id);
       ("status", payment_status); ("redeemOption", redeemOption);
       ("customer", customer); ("createdAt", JStr (now_iso en))] in
    let! _ := modify (fun s => set_orders (<[orderId := record]> (orders s)) s) in
    let! validUntil := prop paymentData "expiration_estimate_date" in
    ret (respond 200 (JObj [
      ("success", JBool true); ("orderId", JStr orderId); ("paymentId", payment_id);
      ("payAddress", pay_address); ("payAmount", pay_amount);
      ("payCurrency", currency); ("status", payment_status);
      ("validUntil", validUntil)]))
  end.

(** POST /api/create-invoice *)
Definition create_invoice (cfg : config) (en : env) (ev : event) : M response :=
  let! b := parse_body ev in
  let! playerId := prop b "playerId" in
  let! redeemOption := prop b "redeemOption" in
  let! customer := prop b "customer" in
  let! s := get_state in
  match find_player playerId (players s) with
  | None => ret (err 404 "Card not found")
  | Some p =>
    if p_sold p then ret (err 400 "Card already sold") else
    let orderId := make_order_id (now_ms en) p in
    let base := ipn_callback ev in
    let! invoiceData := nowpaymentsRequest cfg en "/invoice" "POST" (Some (JObj [
        ("price_amount", JNum (dec (p_price p))); ("price_currency", JStr "sar");
        ("order_id", JStr orderId);
        ("order_description", JStr (order_description p));
        ("ipn_callback_url", JStr (base ++ "/api/ipn"));
        ("success_url", JStr (base ++ "/?payment=success&order=" ++ orderId));
        ("cancel_url", JStr (base ++ "/?payment=cancelled"))])) in
    let! invoiceId := prop invoiceData "id" in
    let! invoiceUrl := prop invoiceData "invoice_url" in
    let record : order :=
      [("orderId", JStr orderId); ("playerId", JNum (dec (p_id p)));
       ("playerName", JStr (p_nameEn p)); ("priceAmount", JNum (dec (p_price p)));
       ("invoiceId", invoiceId); ("invoiceUrl", invoiceUrl);
       ("status", JStr "waiting"); ("redeemOption", redeemOption);
       ("customer", customer); ("createdAt", JStr (now_iso en))] in
    let! _ := modify (fun s => set_orders (<[orderId := record]> (orders s)) s) in
    ret (respond 200 (JObj [
      ("success", JBool true); ("orderId", JStr orderId);
      ("invoiceId", invoiceId); ("invoiceUrl", invoiceUrl)]))
  end.

(** *** POST /api/ipn *)

(** [Object.keys(payload).sort().reduce((obj, key) => { obj[key] = payload[key]; return obj; }, {})].
    [obj["__proto__"] = v] runs the [Object.prototype.__proto__] setter
    (which changes the prototype, or nothing) and creates no own
    property, so that key never reaches [JSON.stringify]. *)
Definition sorted_payload (payload : jsval) (keys : list string) : jsval :=
  JObj (fold_left (fun acc k =>
                     if String.eqb k "__proto__" then acc
                     else set_prop acc k (default JUndef (get_prop payload k)))
                  (js_sort keys) []).

(** [hmac.digest("hex")] after [hmac.update(JSON.stringify(sortedPayload))] *)
Definition ipn_signature (secret : string) (payload : jsval) (keys : list string) : string :=
  hmac_sha512_hex secret (default "" (json_stringify (sorted_payload payload keys))).

(** The [if (NOWPAYMENTS_IPN_SECRET) { ... }] block: [false] when the
    signature check rejects the request. *)
Definition ipn_verify (cfg : config) (ev : event) (payload : jsval) : M bool :=
  if env_set (NOWPAYMENTS_IPN_SECRET cfg) then
    match object_keys payload with
    | None => throw "Cannot convert undefined or null to object"
    | Some ks =>
        let signature := ipn_signature (default "" (NOWPAYMENTS_IPN_SECRET cfg)) payload ks in
        ret (match header ev "x-nowpayments-sig" with
             | Some received => String.eqb received signature
             | None => false
             end)
    end
  else ret true.

Definition is_paid_status (status : jsval) : bool :=
  js_strict_eq status (JStr "confirmed") || js_strict_eq status (JStr "finished").

(** The [if (orders.has(order_id)) { ... }] block. *)
Definition apply_ipn (order_id status actually_paid : jsval) (s : state) : state :=
  match order_id with
  | JStr k =>
      match orders s !! k with
      | Some o =>
          let o' := set_prop (set_prop o "status" status) "actuallyPaid" actually_paid in
          let s1 := set_orders (<[k := o']> (orders s)) s in
          if is_paid_status status
          then set_players (mark_sold (default JUndef (assoc "playerId" o')) (players s1)) s1
          else s1
      | None => s
      end
  | _ => s
  end.

Definition ipn (cfg : config) (ev : event) : M response :=
  let! payload := parse_body ev in
  let! ok := ipn_verify cfg ev payload in
  if negb ok then ret (err 400 "Invalid signature") else
  let! order_id := prop payload "order_id" in
  let! payment_status := prop payload "payment_status" in
  let! actually_paid := prop payload "actually_paid" in
  let! _ := prop payload "pay_amount" in
  let! _ := modify (apply_ipn order_id payment_status actually_paid) in
  ret (respond 200 (JObj [("success", JBool true)])).

(** *** POST /api/redeem *)

Definition msg_required_error := "رمز الاسترداد وعنوان محفظة Lightning مطلوبان".
Definition msg_required_message := "يرجى إدخال رمز الاسترداد وعنوان المحفظة".
Definition msg_invalid_error := "رمز الاسترداد غير صالح".
Definition msg_invalid_message :=
  "الرمز المدخل غير موجود في قاعدة البيانات. تأكد من كتابة الرمز بشكل صحيح.".
Definition msg_used_error := "تم استخدام هذا الرمز مسبقاً".
Definition msg_used_message (date : string) :=
  "تم استرداد هذا الرمز بتاريخ " ++ date ++ ". كل رمز صالح للاستخدام مرة واحدة فقط.".
Definition msg_sent (sats : string) :=
  "تم إرسال " ++ sats ++ " ساتوشي إلى محفظتك بنجاح!".

(** [code.toUpperCase().trim()] *)
Definition normalize_code (c : string) : string := js_trim (js_to_upper c).

(** [`LN-${Date.now()}-${crypto.randomBytes(4).toString("hex").toUpperCase()}`] *)
Definition make_tx_id (en : env) : string :=
  "LN-" ++ dec (now_ms en) ++ "-" ++ js_to_upper (hex_of_bytes (random4 en)).

(** The record after [codeData.redeemed = true; ... codeData.email = email || null;] *)
Definition redeemed_record (cd : redeem_rec) (en : env) (la email : jsval) : redeem_rec :=
  {| rc_playerId := rc_playerId cd; rc_playerName := rc_playerName cd;
     rc_playerNameEn := rc_playerNameEn cd; rc_sats := rc_sats cd;
     rc_redeemed := true; rc_redeemedAt := JStr (now_iso en);
     rc_redeemedTo := la; rc_txId := Some (make_tx_id en);
     rc_email := Some (js_or email JNull) |}.

(** The AlreadyRedeemed answer, built from the stored [redeemedAt]. *)
Definition already_redeemed (en : env) (codeData : redeem_rec) : response :=
  respond 400 (JObj [("error", JStr msg_used_error);
                     ("message", JStr (msg_used_message
                                         (fmt_date_ar_sa en (rc_redeemedAt codeData))))]).

Definition redeem (en : env) (ev : event) : M response :=
  let! b := parse_body ev in
  let! code := prop b "code" in
  let! lightningAddress := prop b "lightningAddress" in
  let! email := prop b "email" in
  if negb (truthy code) || negb (truthy lightningAddress) then
    ret (respond 400 (JObj [("error", JStr msg_required_error);
                            ("message", JStr msg_required_message)]))
  else
  match code with
  | JStr c =>
    let normalizedCode := normalize_code c in
    let! s := get_state in
    match redeemCodes s !! normalizedCode with
    | None => ret (respond 404 (JObj [("error", JStr msg_invalid_error);
                                      ("message", JStr msg_invalid_message)]))
    | Some codeData =>
      if rc_redeemed codeData then ret (already_redeemed en codeData)
      else
        let cd' := redeemed_record codeData en lightningAddress email in
        let! _ := modify (fun s => set_codes (<[normalizedCode := cd']> (redeemCodes s)) s) in
        ret (respond 200 (JObj [
          ("success", JBool true);
          ("message", JStr (msg_sent (fmt_num en (rc_sats cd'))));
          ("playerName", JStr (rc_playerName cd'));
          ("sats", JNum (dec (rc_sats cd')));
          ("lightningAddress", lightningAddress);
          ("txId", JStr (make_tx_id en));
          ("redeemedAt", rc_redeemedAt cd')]))
    end
  | _ => throw "code.toUpperCase is not a function"
  end.

(** *** GET /api/redeem/:code *)
Definition redeem_info (path : string) : M response :=
  let code := normalize_code (replace_first "redeem/" "" path) in
  let! s := get_state in
  match redeemCodes s !! code with
  | None => ret (err 404 "Code not found")
  | Some codeData =>
      ret (respond 200 (JObj [("playerName", JStr (rc_playerName codeData));
                              ("sats", JNum (dec (rc_sats codeData)));
                              ("redeemed", JBool (rc_redeemed codeData))]))
  end.

(** *** The remaining routes *)

Definition api_status (cfg : config) (en : env) : M response :=
  try_catch
    (let! st := nowpaymentsRequest cfg en "/status" "GET" None in
     ret (respond 200 (JObj [("server", JStr "ok"); ("nowpayments", st)])))
    (fun e => ret (respond 200 (JObj [("server", JStr "ok");
                                      ("nowpayments", JObj [("message", JStr e)])]))).

Definition passthrough (cfg : config) (en : env) (endpoint : string) : M response :=
  let! data := nowpaymentsRequest cfg en endpoint "GET" None in
  ret (respond 200 data).

Definition query_param (ev : event) (k : string) : string :=
  match ev_query ev with
  | Some q => default "undefined" (lookup_str k q)
  | None => "undefined"
  end.

Definition payment_status (cfg : config) (en : env) (path : string) : M response :=
  let! data := nowpaymentsRequest cfg en ("/payment/" ++ second_segment path) "GET" None in
  let! paymentId := prop data "payment_id" in
  let! status := prop data "payment_status" in
  let! payAmount := prop data "pay_amount" in
  let! actuallyPaid := prop data "actually_paid" in
  let! payCurrency := prop data "pay_currency" in
  ret (respond 200 (JObj [("paymentId", paymentId); ("status", status);
                          ("payAmount", payAmount); ("actuallyPaid", actuallyPaid);
                          ("payCurrency", payCurrency)])).

Definition get_order (path : string) : M response :=
  let orderId := replace_first "order/" "" path in
  let! s := get_state in
  match orders s !! orderId with
  | None => ret (err 404 "Order not found")
  | Some o => ret (respond 200 (JObj o))
  end.

(** The chain of [if (method === ... && path ...)] tests inside [try]. *)
Definition route (cfg : config) (en : env) (ev : event) (method path : string) : M response :=
  let is m := String.eqb method m in
  if is "GET" && String.eqb path "status" then api_status cfg en
  else if is "GET" && String.eqb path "currencies" then passthrough cfg en "/currencies"
  else if is "GET" && starts_with "min-amount/" path then
    passthrough cfg en ("/min-amount?currency_from=" ++ second_segment path ++ "&currency_to=sar")
  else if is "GET" && String.eqb path "estimate" then
    passthrough cfg en ("/estimate?amount=" ++ query_param ev "amount"
                        ++ "&currency_from=sar&currency_to=" ++ query_param ev "currency")
  else if is "GET" && String.eqb path "cards" then
    let! s := get_state in ret (respond 200 (JArr (map player_json (players s))))
  else if is "POST" && String.eqb path "create-payment" then create_payment cfg en ev
  else if is "POST" && String.eqb path "create-invoice" then create_invoice cfg en ev
  else if is "GET" && starts_with "payment-status/" path then payment_status cfg en path
  else if is "POST" && String.eqb path "ipn" then ipn cfg ev
  else if is "GET" && starts_with "order/" path then get_order path
  else if is "POST" && String.eqb path "redeem" then redeem en ev
  else if is "GET" && starts_with "redeem/" path then redeem_info path
  else ret (respond 404 (JObj [("error", JStr "Route not found");
                               ("path", JStr path); ("method", JStr method)])).

(** The [catch (error)] of the handler. *)
Definition on_error (e : string) : response :=
  respond 500 (JObj [("error", JStr (if String.eqb e "" then "Internal server error" else e))]).

(** [exports.handler] *)
Definition handler (cfg : config) (en : env) (ev : event) : M response :=
  let path := resolve_path ev in
  let method := httpMethod ev in
  if String.eqb method "OPTIONS" then ret (respond 200 (JObj []))
  else try_catch (route cfg en ev method path) (fun e => ret (on_error e)).

(** A route's outcome as the handler answers it. *)
Definition settle (o : outcome response * state) : response * state :=
  match o with
  | (Ok r, s') => (r, s')
  | (Exn e, s') => (on_error e, s')
  end.

(** One invocation: the response and the state after it. *)
Definition step (cfg : config) (en : env) (ev : event) (s : state) : response * state :=
  settle (handler cfg en ev s).

(** A sequence of invocations handled one after another, each with its
    own environment; the responses in order. *)
Fixpoint run (cfg : config) (reqs : list (env * event)) (s : state) : list response * state :=
  match reqs with
  | [] => ([], s)
  | (en, ev) :: rest =>
      let (r, s1) := step cfg en ev s in
      let (rs, s2) := run cfg rest s1 in
      (r :: rs, s2)
  end.

(** ** Sample invocations *)

Definition cfg_demo : config :=
  {| NOWPAYMENTS_API_KEY := Some "demo-key"; NOWPAYMENTS_IPN_SECRET := None;
     IS_PRODUCTION := false |}.

Definition cfg_signed : config :=
  {| NOWPAYMENTS_API_KEY := Some "demo-key"; NOWPAYMENTS_IPN_SECRET := Some "ipn-secret";
     IS_PRODUCTION := false |}.

(** A NOWPayments sandbox answering [/payment] and [/invoice]. *)
Definition demo_gateway (r : gw_request) : gw_response :=
  if String.eqb (gr_url r) "https://api-sandbox.nowpayments.io/v1/payment" then
    GwReply 201 (Some (JObj [("payment_id", JStr "5077125051");
                             ("payment_status", JStr "waiting");
                             ("pay_address", JStr "bc1qdemo");
                             ("pay_amount", JNum "0.0123");
                             ("expiration_estimate_date", JStr "2024-10-15T14:06:40.123Z")]))
  else if String.eqb (gr_url r) "https://api-sandbox.nowpayments.io/v1/invoice" then
    GwReply 200 (Some (JObj [("id", JStr "4522625843");
                             ("invoice_url", JStr "https://nowpayments.io/payment/?iid=4522625843")]))
  else GwReply 200 (Some (JObj [("message", JStr "OK")])).

Definition en_demo : env :=
  {| now_ms := 1729000000123; now_iso := "2024-10-15T13:46:40.123Z";
     random4 := [171; 205; 1; 239]; gateway := demo_gateway;
     fmt_date_ar_sa := js_to_string; fmt_num := dec |}%Z.

Definition mk_event (method path : string) (b : option jsval)
    (headers : list (string * string)) : event :=
  {| httpMethod := method; ev_path := Some path; ev_rawUrl := None;
     ev_headers := headers; ev_query := None; ev_body := b |}.

Definition ev_redeem_gold : event :=
  mk_event "POST" "/api/redeem"
    (Some (JObj [("code", JStr "NASSR-R7CR-GOLD-2025");
                 ("lightningAddress", JStr "x@getalby.com")])) [].

Definition ev_redeem_no_address (code : string) : event :=
  mk_event "POST" "/api/redeem" (Some (JObj [("code", JStr code)])) [].

Definition ev_redeem_info (code : string) : event :=
  mk_event "GET" ("/.netlify/functions/api/redeem/" ++ code) None [].

Definition ev_create (route : string) (playerId : string) : event :=
  mk_event "POST" ("/api/" ++ route)
    (Some (JObj [("playerId", JNum playerId); ("currency", JStr "btc");
                 ("redeemOption", JStr "ship");
                 ("customer", JObj [("email", JStr "fan@example.com")])]))
    [("host", "members.alnassr.sa")].

Definition ev_ipn (payload : list (string * jsval)) (sig : option string) : event :=
  mk_event "POST" "/api/ipn" (Some (JObj payload))
    (match sig with Some x => [("x-nowpayments-sig", x)] | None => [] end).

(** The state after the code [NASSR-R7CR-GOLD-2025] was redeemed. *)
Definition state_gold_redeemed : state := snd (step cfg_demo en_demo ev_redeem_gold state0).

Definition gold_record : redeem_rec :=
  redeemed_record (mk_code 1 "كريستيانو رونالدو" "Cristiano Ronaldo" 5200000) en_demo
    (JStr "x@getalby.com") JUndef.

(** The state after a paid-for order [NASSR-1729000000123-1] for the
    first card was created, and that order. *)
Definition state_with_order : state :=
  snd (step cfg_demo en_demo (ev_create "create-payment" "1") state0).

Definition order_demo : order :=
  default [] (orders state_with_order !! "NASSR-1729000000123-1").

Definition payload_finished : list (string * jsval) :=
  [("payment_id", JNum "5077125051"); ("payment_status", JStr "finished");
   ("pay_amount", JNum "0.0123"); ("actually_paid", JNum "0.0123");
   ("order_id", JStr "NASSR-1729000000123-1")].

(** A second clock reading in the same millisecond. *)
Definition en_same_ms : env :=
  {| now_ms := 1729000000123; now_iso := "2024-10-15T13:46:40.123Z (second request)";
     random4 := [1; 2; 3; 4]; gateway := demo_gateway;
     fmt_date_ar_sa := js_to_string; fmt_num := dec |}%Z.

Definition state_two_orders : state :=
  snd (step cfg_demo en_same_ms (ev_create "create-invoice" "1") state_with_order).

Definition order_second : order :=
  default [] (orders state_two_orders !! "NASSR-1729000000123-1").

(** As the claim C3 words it (not the code): the payload's keys sorted
    lexicographically, each member serialized as [key:value]. *)
Definition lex_sorted_json (ps : list (string * jsval)) : string :=
  "{" ++ String.concat ","
           (flat_map (fun k => match assoc k ps with
                               | Some v => match json_stringify v with
                                           | Some x => [json_quote k ++ ":" ++ x]
                                           | None => []
                                           end
                               | None => []
                               end)
                     (js_sort (dedup (map fst ps)))) ++ "}".

Definition payload_index_keys : list (string * jsval) :=
  [("10", JStr "a"); ("9", JStr "b")].

(** A payload with an own ["__proto__"] member, as [JSON.parse] makes it. *)
Definition payload_proto_key : list (string * jsval) :=
  [("__proto__", JNum "1"); ("a", JNum "2")].

(** ** Relations between states used in the proofs *)

(** [m] takes every state to one related to it by [R]. *)
Definition preserves (R : state -> state -> Prop) {A} (m : M A) : Prop :=
  forall s, R s (snd (m s)).

(** The same catalog entry, with [sold] kept once set. *)
Definition player_le (p p' : player) : Prop :=
  p_id p' = p_id p /\ (p_sold p = true -> p_sold p' = true).

Definition players_le (s s' : state) : Prop :=
  Forall2 player_le (players s) (players s').

(** The [redeemed] flag of the code [k]. *)
Definition redeemed_in (k : string) (s : state) : bool :=
  match redeemCodes s !! k with
  | Some cd => rc_redeemed cd
  | None => false
  end.

Definition codes_le (s s' : state) : Prop :=
  forall k, redeemed_in k s = true -> redeemed_in k s' = true.

(** The normalized code a redeem request names, if its body has a
    string [code]. *)
Definition redeem_code_of (ev : event) : option string :=
  match ev_body ev with
  | Some b => match get_prop b "code" with
              | Some (JStr c) => Some (normalize_code c)
              | _ => None
              end
  | None => None
  end.

(** A [POST /api/redeem] request for the code [k]. *)
Definition is_redeem_for (k : string) (ev : event) : bool :=
  String.eqb (httpMethod ev) "POST" && String.eqb (resolve_path ev) "redeem"
  && match redeem_code_of ev with Some k' => String.eqb k' k | None => false end.

(** The number of successful (200) redemptions of [k] among the
    requests and their responses. *)
Fixpoint redeem_successes (k : string) (reqs : list (env * event)) (rs : list response) : nat :=
  match reqs, rs with
  | (_, ev) :: reqs', r :: rs' =>
      (if is_redeem_for k ev && Z.eqb (statusCode r) 200 then 1 else 0)
      + redeem_successes k reqs' rs'
  | _, _ => 0
  end.

(** The orders after a creation request: unchanged, or one record added
    (or replaced) under the id built from the clock and the requested
    item, whose ["orderId"] field is that id. *)
Definition order_created (en : env) (ev : event) (s s' : state) : Prop :=
  orders s' = orders s \/
  exists b pid p (r : order), ev_body ev = Some b /\ get_prop b "playerId" = Some pid /\
    find_player pid (players s) = Some p /\
    orders s' = <[make_order_id (now_ms en) p := r]> (orders s) /\
    assoc "orderId" r = Some (JStr (make_order_id (now_ms en) p)).


(** Byte values. *)
Definition is_byte (b : Z) : Prop := (0 <= b < 256)%Z.

(** Decoded text with no raw byte: every byte belongs to a well-formed
    UTF-8 sequence. *)
Definition no_raw (xs : list (Z + Z)) : bool :=
  forallb (fun x => match x with inl _ => true | inr _ => false end) xs.

(** ** Definitions used by the further properties *)

(** Every order id of [s] is still an order id of [s'], and [s'] has
    exactly the redeem codes of [s]. *)
Definition keys_kept (s s' : state) : Prop :=
  (forall k, is_Some (orders s !! k) -> is_Some (orders s' !! k)) /\
  (forall k, is_Some (redeemCodes s' !! k) <-> is_Some (redeemCodes s !! k)).

(** An ASCII digit or uppercase hex letter [0-9A-F]. *)
Definition is_upper_hex (c : ascii) : bool :=
  let n := nat_of_ascii c in
  (Nat.leb 48 n && Nat.leb n 57) || (Nat.leb 65 n && Nat.leb n 70).

(** A path segment: no ["/"] in it. *)
Definition no_slash (s : string) : bool :=
  forallb (fun c => negb (Ascii.eqb c "/")) (list_ascii_of_string s).

(** A deployment without [NOWPAYMENTS_API_KEY]. *)
Definition cfg_nokey : config :=
  {| NOWPAYMENTS_API_KEY := None; NOWPAYMENTS_IPN_SECRET := None;
     IS_PRODUCTION := false |}.

Definition ev_get (path : string) : event := mk_event "GET" path None [].

(** A creation request whose [playerId] is the string ["1"], not a number. *)
Definition ev_create_string_id : event :=
  mk_event "POST" "/api/create-payment" (Some (JObj [("playerId", JStr "1")])) [].

(** A creation request for the first card without a currency. *)
Definition ev_create_no_currency : event :=
  mk_event "POST" "/api/create-payment" (Some (JObj [("playerId", JNum "1")])) [].

(** A redeem request whose [code] is a number. *)
Definition ev_redeem_number_code : event :=
  mk_event "POST" "/api/redeem"
    (Some (JObj [("code", JNum "2025"); ("lightningAddress", JStr "x@getalby.com")])) [].

(** * Proofs *)

(** ** Routing *)

Lemma step_not_options (cfg : config) (en : env) (ev : event) (s : state) :
  httpMethod ev <> "OPTIONS" ->
  step cfg en ev s = settle (route cfg en ev (httpMethod ev) (resolve_path ev) s).
Proof.
  intros H. unfold step, handler.
  destruct (String.eqb_spec (httpMethod ev) "OPTIONS") as [E|_]; [congruence|].
  unfold try_catch, settle. destruct (route _ _ _ _ _ s) as [[r|e] s']; reflexivity.
Qed.

Ltac route_to Hm Hp :=
  rewrite step_not_options by (rewrite Hm; discriminate);
  rewrite Hm, Hp; reflexivity.

Lemma step_redeem cfg en ev s :
  httpMethod ev = "POST" -> resolve_path ev = "redeem" ->
  step cfg en ev s = settle (redeem en ev s).
Proof. intros Hm Hp. route_to Hm Hp. Qed.

Lemma step_ipn cfg en ev s :
  httpMethod ev = "POST" -> resolve_path ev = "ipn" ->
  step cfg en ev s = settle (ipn cfg ev s).
Proof. intros Hm Hp. route_to Hm Hp. Qed.

Lemma step_create_payment cfg en ev s :
  httpMethod ev = "POST" -> resolve_path ev = "create-payment" ->
  step cfg en ev s = settle (create_payment cfg en ev s).
Proof. intros Hm Hp. route_to Hm Hp. Qed.

Lemma step_create_invoice cfg en ev s :
  httpMethod ev = "POST" -> resolve_path ev = "create-invoice" ->
  step cfg en ev s = settle (create_invoice cfg en ev s).
Proof. intros Hm Hp. route_to Hm Hp. Qed.

Lemma prefix_app (p r : string) : String.prefix p (p ++ r) = true.
Proof.
  induction p as [|c p IH]; simpl.
  - destruct r; reflexivity.
  - destruct (ascii_dec c c); [exact IH | congruence].
Qed.

Lemma step_redeem_info cfg en ev s rest :
  httpMethod ev = "GET" -> resolve_path ev = "redeem/" ++ rest ->
  step cfg en ev s = settle (redeem_info ("redeem/" ++ rest) s).
Proof.
  intros Hm Hp. rewrite step_not_options by (rewrite Hm; discriminate).
  rewrite Hm, Hp. unfold route, starts_with. simpl. rewrite prefix_app. reflexivity.
Qed.

(** ** Strings *)

Lemma append_length (p r : string) : String.length (p ++ r) = (String.length p + String.length r)%nat.
Proof. induction p as [|c p IH]; simpl; [reflexivity | now rewrite IH]. Qed.

Lemma substring_all (r : string) : String.substring 0 (String.length r) r = r.
Proof. induction r as [|c r IH]; simpl; [reflexivity | now rewrite IH]. Qed.

Lemma substring_after (p r : string) (m : nat) :
  String.substring (String.length p) m (p ++ r) = String.substring 0 m r.
Proof. induction p as [|c p IH]; simpl; [reflexivity | exact IH]. Qed.

Lemma index_prefix (p r : string) : String.index 0 p (p ++ r) = Some 0%nat.
Proof.
  destruct p as [|c p].
  - destruct r; reflexivity.
  - simpl. destruct (ascii_dec c c) as [_|n]; [|congruence].
    rewrite prefix_app. reflexivity.
Qed.

(** [s.replace(p, "")] on a string starting with [p] drops that prefix. *)
Lemma replace_first_prefix (p r : string) : replace_first p "" (p ++ r) = r.
Proof.
  unfold replace_first. rewrite index_prefix, append_length.
  replace (String.length p + String.length r - (0 + String.length p))%nat
    with (String.length r) by lia.
  replace (0 + String.length p)%nat with (String.length p) by lia.
  rewrite substring_after, substring_all.
  assert (E : String.substring 0 0 (p ++ r) = "") by (destruct (p ++ r); reflexivity).
  rewrite E. reflexivity.
Qed.

(** ** C10: GET /api/redeem/:code *)

(** C10. For every code, [GET /api/redeem/:code] leaves the whole state
    unchanged, and answers 404 when the normalized code is not a key, or
    200 with exactly the fields [playerName], [sats] and [redeemed] of
    the record: no [redeemedTo], [redeemedAt], [txId] or [email]. *)
Theorem redeem_info_read_only (cfg : config) (en : env) (ev : event) (s : state)
    (rest : string) :
  httpMethod ev = "GET" -> resolve_path ev = "redeem/" ++ rest ->
  step cfg en ev s =
    (match redeemCodes s !! normalize_code rest with
     | None => err 404 "Code not found"
     | Some cd =>
         respond 200 (JObj [("playerName", JStr (rc_playerName cd));
                            ("sats", JNum (dec (rc_sats cd)));
                            ("redeemed", JBool (rc_redeemed cd))])
     end, s).
Proof.
  intros Hm Hp. rewrite (step_redeem_info cfg en ev s rest Hm Hp).
  unfold redeem_info. rewrite replace_first_prefix.
  unfold bind, get_state, ret, settle.
  destruct (redeemCodes s !! normalize_code rest); reflexivity.
Qed.

(** ** Preservation of a preorder through the handler *)

Section Preserves.
Variable R : state -> state -> Prop.
Hypothesis R_refl : forall s, R s s.
Hypothesis R_trans : forall s1 s2 s3, R s1 s2 -> R s2 s3 -> R s1 s3.

Lemma pres_ret {A} (a : A) : preserves R (ret a).
Proof. intros s. apply R_refl. Qed.

Lemma pres_throw {A} (e : string) : preserves R (@throw A e).
Proof. intros s. apply R_refl. Qed.

Lemma pres_get : preserves R get_state.
Proof. intros s. apply R_refl. Qed.

Lemma pres_modify (f : state -> state) :
  (forall s, R s (f s)) -> preserves R (modify f).
Proof. intros H s. apply H. Qed.

Lemma pres_bind {A B} (m : M A) (k : A -> M B) :
  preserves R m -> (forall a, preserves R (k a)) -> preserves R (bind m k).
Proof.
  intros Hm Hk s. unfold bind. specialize (Hm s).
  destruct (m s) as [[a|e] s'] eqn:E; simpl in *; [|exact Hm].
  eapply R_trans; [exact Hm | apply Hk].
Qed.

Lemma pres_try_catch {A} (m : M A) (h : string -> M A) :
  preserves R m -> (forall e, preserves R (h e)) -> preserves R (try_catch m h).
Proof.
  intros Hm Hh s. unfold try_catch. specialize (Hm s).
  destruct (m s) as [[a|e] s'] eqn:E; simpl in *; [exact Hm|].
  eapply R_trans; [exact Hm | apply Hh].
Qed.

Lemma pres_prop (v : jsval) (k : string) : preserves R (prop v k).
Proof. unfold prop. destruct (get_prop v k); [apply pres_ret | apply pres_throw]. Qed.

Lemma pres_parse_body (ev : event) : preserves R (parse_body ev).
Proof. unfold parse_body. destruct (ev_body ev); [apply pres_ret | apply pres_throw]. Qed.

Hypothesis R_log : forall r s, R s (log_call r s).
Hypothesis R_orders : forall o s, R s (set_orders o s).
Hypothesis R_ipn : forall a b c s, R s (apply_ipn a b c s).
Hypothesis R_codes : forall k cd s,
  rc_redeemed cd = true -> R s (set_codes (<[k := cd]> (redeemCodes s)) s).

Ltac pres :=
  repeat first
    [ progress cbv zeta
    | apply pres_ret | apply pres_throw | apply pres_get
    | apply pres_prop | apply pres_parse_body
    | apply pres_modify; intro; first [ apply R_log | apply R_orders | apply R_ipn
                                      | apply R_codes; reflexivity ]
    | apply pres_bind; [ | intro ]
    | apply pres_try_catch; [ | intro ]
    | case_match ].

Lemma pres_nowpayments cfg en endpoint method b :
  preserves R (nowpaymentsRequest cfg en endpoint method b).
Proof. unfold nowpaymentsRequest. pres. Qed.

Lemma pres_route cfg en ev method path : preserves R (route cfg en ev method path).
Proof.
  unfold route, api_status, passthrough, create_payment, create_invoice,
    payment_status, ipn, ipn_verify, get_order, redeem, redeem_info, customer_missing.
  pres; apply pres_nowpayments.
Qed.

Lemma pres_step cfg en ev s : R s (snd (step cfg en ev s)).
Proof.
  unfold step, handler, settle.
  assert (H : preserves R (if String.eqb (httpMethod ev) "OPTIONS"
                           then ret (respond 200 (JObj []))
                           else try_catch (route cfg en ev (httpMethod ev) (resolve_path ev))
                                  (fun e => ret (on_error e)))).
  { case_match; [apply pres_ret|].
    apply pres_try_catch; [apply pres_route | intro; apply pres_ret]. }
  specialize (H s). cbv zeta.
  destruct (_ s) as [[r|e] s'] eqn:E; simpl in *; exact H.
Qed.

Lemma pres_run cfg reqs s : R s (snd (run cfg reqs s)).
Proof.
  revert s. induction reqs as [|[en ev] reqs IH]; intros s; simpl; [apply R_refl|].
  pose proof (pres_step cfg en ev s) as H1.
  destruct (step cfg en ev s) as [r s1]. specialize (IH s1).
  destruct (run cfg reqs s1) as [rs s2]. simpl in *. eauto.
Qed.
End Preserves.

(** ** The catalog: [sold] is never reset *)

Lemma player_le_refl (p : player) : player_le p p.
Proof. split; auto. Qed.

Lemma players_le_refl (s : state) : players_le s s.
Proof. unfold players_le. induction (players s); constructor; auto using player_le_refl. Qed.

Lemma Forall2_player_le_trans (l1 l2 l3 : list player) :
  Forall2 player_le l1 l2 -> Forall2 player_le l2 l3 -> Forall2 player_le l1 l3.
Proof.
  intros H12. revert l3. induction H12 as [|p1 p2 l1 l2 [Hid Hs] _ IH]; intros l3 H23;
    inversion H23 as [|? p3 ? l3' [Hid' Hs'] H23']; subst; constructor; auto.
  split; [congruence | auto].
Qed.

Lemma players_le_trans (s1 s2 s3 : state) :
  players_le s1 s2 -> players_le s2 s3 -> players_le s1 s3.
Proof. apply Forall2_player_le_trans. Qed.

Lemma Forall2_player_le_refl (ps : list player) : Forall2 player_le ps ps.
Proof. induction ps; constructor; auto using player_le_refl. Qed.

Lemma mark_sold_le (v : jsval) (ps : list player) : Forall2 player_le ps (mark_sold v ps).
Proof.
  induction ps as [|p ps IH]; simpl; [constructor|].
  case_match; constructor.
  - split; simpl; auto.
  - apply Forall2_player_le_refl.
  - apply player_le_refl.
  - exact IH.
Qed.

Lemma players_le_apply_ipn a b c s : players_le s (apply_ipn a b c s).
Proof.
  unfold apply_ipn, players_le. repeat case_match; simpl;
    first [apply mark_sold_le | apply Forall2_player_le_refl].
Qed.

(** C7. Over every sequence of invocations of the handler (payment and
    invoice creation, webhooks with any status, redemptions, reads),
    the catalog keeps its items in place with their ids, and an item
    whose [sold] flag is [true] still has it [true] afterwards. *)
Theorem sold_never_reverts (cfg : config) (reqs : list (env * event)) (s : state) :
  Forall2 (fun p p' => p_id p' = p_id p /\ (p_sold p = true -> p_sold p' = true))
          (players s) (players (snd (run cfg reqs s))).
Proof.
  apply (pres_run players_le players_le_refl players_le_trans);
    intros; first [ apply players_le_apply_ipn
                  | unfold players_le; simpl; apply Forall2_player_le_refl ].
Qed.

(** ** Redeem codes: the [redeemed] flag *)

Lemma codes_le_refl (s : state) : codes_le s s.
Proof. intros k H. exact H. Qed.

Lemma codes_le_trans (s1 s2 s3 : state) : codes_le s1 s2 -> codes_le s2 s3 -> codes_le s1 s3.
Proof. intros H12 H23 k H. auto. Qed.

Lemma codes_le_apply_ipn a b c s : codes_le s (apply_ipn a b c s).
Proof.
  unfold apply_ipn. repeat case_match; intros k Hk; unfold redeemed_in in *; simpl; exact Hk.
Qed.

Lemma codes_le_set_codes k cd s :
  rc_redeemed cd = true -> codes_le s (set_codes (<[k := cd]> (redeemCodes s)) s).
Proof.
  intros Hcd k' H. unfold redeemed_in in *. simpl.
  destruct (decide (k = k')) as [->|Hne].
  - rewrite lookup_insert_eq. exact Hcd.
  - rewrite lookup_insert_ne by exact Hne. exact H.
Qed.

(** No invocation of the handler resets a [redeemed] flag. *)
Lemma codes_le_run cfg reqs s : codes_le s (snd (run cfg reqs s)).
Proof.
  apply (pres_run codes_le codes_le_refl codes_le_trans);
    intros; first [ apply codes_le_apply_ipn | apply codes_le_set_codes; assumption
                  | intros k' Hk; exact Hk ].
Qed.

Lemma codes_le_step cfg en ev s : codes_le s (snd (step cfg en ev s)).
Proof.
  apply (pres_step codes_le codes_le_refl codes_le_trans);
    intros; first [ apply codes_le_apply_ipn | apply codes_le_set_codes; assumption
                  | intros k' Hk; exact Hk ].
Qed.

Lemma get_prop_defined (v : jsval) (k k' : string) (x : jsval) :
  get_prop v k = Some x -> exists y, get_prop v k' = Some y.
Proof. destruct v; simpl; try discriminate; intros _; repeat case_match; eauto. Qed.

Ltac monad_simpl :=
  unfold parse_body, bind, prop, ret, throw, get_state, modify, settle in *.

(** A redeem request for [k] that is answered 200 found [k] not yet
    redeemed and leaves it redeemed. *)
Lemma redeem_success_flips cfg en ev s k :
  is_redeem_for k ev = true -> statusCode (fst (step cfg en ev s)) = 200%Z ->
  redeemed_in k s = false /\ redeemed_in k (snd (step cfg en ev s)) = true.
Proof.
  unfold is_redeem_for. intros H H200.
  apply andb_prop in H as [H Hk]. apply andb_prop in H as [Hm Hp].
  apply String.eqb_eq in Hm, Hp.
  rewrite (step_redeem cfg en ev s Hm Hp) in *.
  unfold redeem_code_of in Hk.
  destruct (ev_body ev) as [b|] eqn:Hb; [|discriminate].
  destruct (get_prop b "code") as [[]|] eqn:Hc; try discriminate.
  apply String.eqb_eq in Hk. subst k.
  destruct (get_prop_defined b "code" "lightningAddress" _ Hc) as [la Hla].
  destruct (get_prop_defined b "code" "email" _ Hc) as [em Hem].
  unfold redeem in *. monad_simpl. rewrite Hb, Hc, Hla, Hem in *.
  destruct (negb (truthy (JStr s0)) || negb (truthy la)); [discriminate|].
  unfold redeemed_in.
  destruct (redeemCodes s !! normalize_code s0) as [cd|] eqn:Hl; [|discriminate].
  destruct (rc_redeemed cd) eqn:Hr; [discriminate|].
  simpl. rewrite lookup_insert_eq. auto.
Qed.

(** Over any sequence of invocations, at most one redemption of [k]
    succeeds, and none if [k] was already redeemed. *)
Lemma redeem_successes_bound cfg reqs s k :
  (redeem_successes k reqs (fst (run cfg reqs s)) <= if redeemed_in k s then 0 else 1)%nat.
Proof.
  revert s. induction reqs as [|[en ev] reqs IH]; intros s; simpl; [lia|].
  pose proof (codes_le_step cfg en ev s k) as Hmono.
  destruct (is_redeem_for k ev && Z.eqb (statusCode (fst (step cfg en ev s))) 200) eqn:E.
  - apply andb_prop in E as [Hr Hst]. apply Z.eqb_eq in Hst.
    destruct (redeem_success_flips cfg en ev s k Hr Hst) as [H0 H1].
    destruct (step cfg en ev s) as [r s1] eqn:Hs. simpl in *.
    specialize (IH s1). destruct (run cfg reqs s1) as [rs s2]. simpl in *.
    rewrite Hr, Hst in *. simpl. rewrite H0, H1 in *. lia.
  - destruct (step cfg en ev s) as [r s1] eqn:Hs. simpl in *.
    specialize (IH s1). destruct (run cfg reqs s1) as [rs s2]. simpl in *.
    rewrite E. simpl.
    destruct (redeemed_in k s) eqn:Ek; [rewrite (Hmono eq_refl) in IH|]; destruct (redeemed_in k s1); lia.
Qed.

(** A redeem request whose body is a value other than [null] (so that
    its properties can be read) but whose [code] or [lightningAddress]
    is missing or falsy is answered with the "code and address
    required" 400 before any record is looked up; nothing changes. *)
Lemma redeem_missing_fields cfg en ev s b cv lv :
  httpMethod ev = "POST" -> resolve_path ev = "redeem" -> ev_body ev = Some b ->
  get_prop b "code" = Some cv -> get_prop b "lightningAddress" = Some lv ->
  truthy cv = false \/ truthy lv = false ->
  step cfg en ev s = (respond 400 (JObj [("error", JStr msg_required_error);
                                         ("message", JStr msg_required_message)]), s).
Proof.
  intros Hm Hp Hb Hc Hla Hf.
  destruct (get_prop_defined b "code" "email" _ Hc) as [em Hem].
  rewrite (step_redeem cfg en ev s Hm Hp). unfold redeem. monad_simpl.
  rewrite Hb. cbv beta iota. rewrite Hc. cbv beta iota. rewrite Hla. cbv beta iota.
  rewrite Hem. cbv beta iota.
  replace (negb (truthy cv) || negb (truthy lv)) with true
    by (destruct Hf as [-> | ->]; [reflexivity | now rewrite orb_true_r]).
  reflexivity.
Qed.

(** C1 (amended). A redeem call that supplies a code and a destination
    address, on a code whose record already has [redeemed = true],
    answers the AlreadyRedeemed 400 response, whose message renders the
    stored [redeemedAt], and leaves the whole state unchanged; a redeem
    call whose body is a value other than [null] but lacks a truthy code
    or address gets the "code and address required" 400 instead, before
    the record is looked up, with the state unchanged; and over any
    sequence of invocations at most one redemption of a code succeeds
    (none once it is redeemed). *)
Theorem redeem_at_most_once (cfg : config) (en : env) (ev : event) (s : state)
    (ps : list (string * jsval)) (c : string) (la : jsval) (cd : redeem_rec) :
  httpMethod ev = "POST" -> resolve_path ev = "redeem" ->
  ev_body ev = Some (JObj ps) ->
  assoc "code" ps = Some (JStr c) -> c <> "" ->
  assoc "lightningAddress" ps = Some la -> truthy la = true ->
  redeemCodes s !! normalize_code c = Some cd -> rc_redeemed cd = true ->
  step cfg en ev s = (already_redeemed en cd, s) /\
  (forall (cfg' : config) (en' : env) (ev' : event) (s' : state) (b cv lv : jsval),
     httpMethod ev' = "POST" -> resolve_path ev' = "redeem" -> ev_body ev' = Some b ->
     get_prop b "code" = Some cv -> get_prop b "lightningAddress" = Some lv ->
     truthy cv = false \/ truthy lv = false ->
     step cfg' en' ev' s' = (respond 400 (JObj [("error", JStr msg_required_error);
                                                ("message", JStr msg_required_message)]), s')) /\
  (forall (cfg' : config) (reqs : list (env * event)) (s0 : state) (k : string),
     (redeem_successes k reqs (fst (run cfg' reqs s0))
        <= if redeemed_in k s0 then 0 else 1)%nat).
Proof.
  intros Hm Hp Hb Hc Hne Hla Htr Hl Hr.
  split; [|split; [exact redeem_missing_fields | intros; apply redeem_successes_bound]].
  rewrite (step_redeem cfg en ev s Hm Hp). unfold redeem. monad_simpl.
  rewrite Hb. simpl. rewrite Hc, Hla. simpl.
  destruct c as [|ch c']; [congruence|]. rewrite Htr. simpl.
  rewrite Hl, Hr. reflexivity.
Qed.

Lemma redeem_at_most_once_witness :
  step cfg_demo en_demo ev_redeem_gold state_gold_redeemed
    = (already_redeemed en_demo gold_record, state_gold_redeemed) /\
  step cfg_demo en_demo (ev_redeem_no_address "NASSR-R7CR-GOLD-2025") state_gold_redeemed
    = (respond 400 (JObj [("error", JStr msg_required_error);
                          ("message", JStr msg_required_message)]), state_gold_redeemed).
Proof.
  pose proof (redeem_at_most_once cfg_demo en_demo ev_redeem_gold state_gold_redeemed
    [("code", JStr "NASSR-R7CR-GOLD-2025"); ("lightningAddress", JStr "x@getalby.com")]
    "NASSR-R7CR-GOLD-2025" (JStr "x@getalby.com") gold_record
    ltac:(reflexivity) ltac:(vm_compute; reflexivity) ltac:(reflexivity)
    ltac:(reflexivity) ltac:(discriminate) ltac:(reflexivity) ltac:(reflexivity)
    ltac:(vm_compute; reflexivity) ltac:(reflexivity)) as [H1 [H2 _]].
  split; [exact H1|].
  exact (H2 cfg_demo en_demo (ev_redeem_no_address "NASSR-R7CR-GOLD-2025") state_gold_redeemed
    (JObj [("code", JStr "NASSR-R7CR-GOLD-2025")]) (JStr "NASSR-R7CR-GOLD-2025") JUndef
    ltac:(reflexivity) ltac:(vm_compute; reflexivity) ltac:(reflexivity)
    ltac:(reflexivity) ltac:(reflexivity) ltac:(right; reflexivity)).
Defined.

(** C1 as stated fails: once [NASSR-R7CR-GOLD-2025] is redeemed, a redeem
    call for it without a destination address is answered with the
    "code and address required" 400, not with AlreadyRedeemed. *)
Lemma redeem_at_most_once_counterexample :
  redeemed_in "NASSR-R7CR-GOLD-2025" state_gold_redeemed = true /\
  step cfg_demo en_demo (ev_redeem_no_address "NASSR-R7CR-GOLD-2025") state_gold_redeemed
    = (respond 400 (JObj [("error", JStr msg_required_error);
                          ("message", JStr msg_required_message)]), state_gold_redeemed) /\
  fst (step cfg_demo en_demo (ev_redeem_no_address "NASSR-R7CR-GOLD-2025") state_gold_redeemed)
    <> already_redeemed en_demo gold_record.
Proof.
  split; [vm_compute; reflexivity|].
  split; [vm_compute; reflexivity|].
  vm_compute. discriminate.
Qed.

Lemma redeem_info_read_only_witness :
  step cfg_demo en_demo (ev_redeem_info "nassr-r7cr-gold-2025") state0
    = (respond 200 (JObj [("playerName", JStr "كريستيانو رونالدو");
                          ("sats", JNum "5200000"); ("redeemed", JBool false)]), state0).
Proof.
  refine (eq_trans (redeem_info_read_only cfg_demo en_demo
            (ev_redeem_info "nassr-r7cr-gold-2025") state0 "nassr-r7cr-gold-2025"
            ltac:(reflexivity) ltac:(vm_compute; reflexivity)) _).
  vm_compute. reflexivity.
Defined.

(** ** POST /api/redeem: the three outcomes of a complete request *)

(** A redeem request with a non-empty string code and a truthy address
    looks up the normalized code and answers NotFound, AlreadyRedeemed,
    or redeems the record. *)
Lemma redeem_step cfg en ev s b c la em :
  httpMethod ev = "POST" -> resolve_path ev = "redeem" -> ev_body ev = Some b ->
  get_prop b "code" = Some (JStr c) -> c <> "" ->
  get_prop b "lightningAddress" = Some la -> truthy la = true ->
  get_prop b "email" = Some em ->
  step cfg en ev s =
    match redeemCodes s !! normalize_code c with
    | None => (respond 404 (JObj [("error", JStr msg_invalid_error);
                                  ("message", JStr msg_invalid_message)]), s)
    | Some cd =>
        if rc_redeemed cd then (already_redeemed en cd, s)
        else (respond 200 (JObj [
                ("success", JBool true);
                ("message", JStr (msg_sent (fmt_num en (rc_sats cd))));
                ("playerName", JStr (rc_playerName cd));
                ("sats", JNum (dec (rc_sats cd)));
                ("lightningAddress", la);
                ("txId", JStr (make_tx_id en));
                ("redeemedAt", JStr (now_iso en))]),
              set_codes (<[normalize_code c := redeemed_record cd en la em]> (redeemCodes s)) s)
    end.
Proof.
  intros Hm Hp Hb Hc Hne Hla Htr Hem.
  rewrite (step_redeem cfg en ev s Hm Hp). unfold redeem. monad_simpl.
  rewrite Hb. simpl. rewrite Hc, Hla, Hem. simpl.
  destruct c as [|ch c']; [congruence|]. rewrite Htr. simpl.
  destruct (redeemCodes s !! _) as [cd|]; [|reflexivity].
  destruct (rc_redeemed cd); reflexivity.
Qed.

(** ** C8: a sold card cannot be bought again *)

(** C8. A [POST /api/create-payment] whose [playerId] names a catalog
    item with [sold = true] is answered 400 "Card already sold" and the
    state is left as it was: no order is stored and no NOWPayments
    request is made (the log of gateway calls is unchanged). *)
Theorem create_payment_sold_rejected (cfg : config) (en : env) (ev : event) (s : state)
    (b pid : jsval) (p : player) :
  httpMethod ev = "POST" -> resolve_path ev = "create-payment" -> ev_body ev = Some b ->
  get_prop b "playerId" = Some pid -> find_player pid (players s) = Some p ->
  p_sold p = true ->
  step cfg en ev s = (err 400 "Card already sold", s).
Proof.
  intros Hm Hp Hb Hpid Hf Hs.
  rewrite (step_create_payment cfg en ev s Hm Hp). unfold create_payment. monad_simpl.
  destruct (get_prop_defined b "playerId" "currency" _ Hpid) as [cu Hcu].
  destruct (get_prop_defined b "playerId" "redeemOption" _ Hpid) as [ro Hro].
  destruct (get_prop_defined b "playerId" "customer" _ Hpid) as [cs Hcs].
  rewrite Hb. simpl. rewrite Hpid, Hcu, Hro, Hcs. simpl.
  rewrite Hf, Hs. reflexivity.
Qed.

Lemma create_payment_sold_rejected_witness :
  step cfg_demo en_demo (ev_create "create-payment" "3") state0
    = (err 400 "Card already sold", state0).
Proof.
  exact (create_payment_sold_rejected cfg_demo en_demo (ev_create "create-payment" "3") state0
    (JObj [("playerId", JNum "3"); ("currency", JStr "btc"); ("redeemOption", JStr "ship");
           ("customer", JObj [("email", JStr "fan@example.com")])])
    (JNum "3") (mk_player 3 "ايمريك لابورت" "Aymeric Laporte" 99999 "0.27" true)
    ltac:(reflexivity) ltac:(vm_compute; reflexivity) ltac:(reflexivity)
    ltac:(reflexivity) ltac:(vm_compute; reflexivity) ltac:(reflexivity)).
Defined.

(** ** C5: a successful redemption *)



(** ** POST /api/ipn on a verified payload *)


Lemma assoc_set_prop_ne (ps : list (string * jsval)) (k k' : string) (v : jsval) :
  k <> k' -> assoc k (set_prop ps k' v) = assoc k ps.
Proof.
  intros Hne. induction ps as [|[k'' v'] ps IH]; simpl.
  - apply String.eqb_neq in Hne. rewrite Hne. reflexivity.
  - destruct (String.eqb_spec k' k'') as [->|Hne']; simpl.
    + apply String.eqb_neq in Hne. rewrite Hne. reflexivity.
    + rewrite IH. reflexivity.
Qed.



Lemma orders_apply_ipn (k : string) (st ap : jsval) (t : state) (o : order) :
  orders t !! k = Some o ->
  orders (apply_ipn (JStr k) st ap t)
    = <[k := set_prop (set_prop o "status" st) "actuallyPaid" ap]> (orders t).
Proof. intros H. unfold apply_ipn. rewrite H. destruct (is_paid_status st); reflexivity. Qed.

Lemma players_apply_ipn (k : string) (st ap : jsval) (t : state) (o : order) :
  orders t !! k = Some o ->
  players (apply_ipn (JStr k) st ap t)
    = if is_paid_status st then mark_sold (default JUndef (assoc "playerId" o)) (players t)
      else players t.
Proof.
  intros H. unfold apply_ipn. rewrite H.
  rewrite assoc_set_prop_ne by discriminate. rewrite assoc_set_prop_ne by discriminate.
  destruct (is_paid_status st); reflexivity.
Qed.

Lemma ipn_step cfg en ev s payload oid st ap pa :
  httpMethod ev = "POST" -> resolve_path ev = "ipn" -> ev_body ev = Some payload ->
  ipn_verify cfg ev payload s = (Ok true, s) ->
  get_prop payload "order_id" = Some oid -> get_prop payload "payment_status" = Some st ->
  get_prop payload "actually_paid" = Some ap -> get_prop payload "pay_amount" = Some pa ->
  step cfg en ev s = (respond 200 (JObj [("success", JBool true)]), apply_ipn oid st ap s).
Proof.
  intros Hm Hp Hb Hv Ho Hs Ha Hpa.
  rewrite (step_ipn cfg en ev s Hm Hp). unfold ipn. monad_simpl.
  rewrite Hb. cbv beta iota. rewrite Hv. cbv beta iota. simpl negb. cbv iota beta.
  rewrite Ho, Hs, Ha, Hpa. reflexivity.
Qed.

(** ** C2: webhook updates of a known order *)



(** ** Order creation *)

Lemma nowpayments_orders cfg en e m b s :
  orders (snd (nowpaymentsRequest cfg en e m b s)) = orders s.
Proof.
  unfold nowpaymentsRequest, bind, modify, prop, ret, throw.
  repeat case_match; simplify_eq/=; reflexivity.
Qed.

Ltac created_after_gateway s Hn :=
  match goal with |- context [nowpaymentsRequest ?a ?b ?c ?d ?e s] =>
    pose proof (nowpayments_orders a b c d e s) as Hn;
    destruct (nowpaymentsRequest a b c d e s) as [[pd|er] s1] eqn:En
  end;
  simpl in Hn; [|left; exact Hn];
  cbv beta iota zeta;
  repeat case_match; simplify_eq/=;
  first [ left; exact Hn
        | right; eexists _, _, _; eexists; split_and!;
          [reflexivity | eassumption | eassumption | rewrite Hn; reflexivity | reflexivity] ].

Lemma create_payment_orders cfg en ev s :
  order_created en ev s (snd (create_payment cfg en ev s)).
Proof.
  unfold order_created, create_payment, customer_missing, parse_body, bind, prop, ret, throw,
    get_state, modify.
  destruct (ev_body ev) as [b|] eqn:Hb; cbv beta iota zeta; [|left; reflexivity].
  destruct (get_prop b "playerId") as [pid|] eqn:E1; cbv beta iota zeta; [|left; reflexivity].
  destruct (get_prop b "currency") as [cu|] eqn:E2; cbv beta iota zeta; [|left; reflexivity].
  destruct (get_prop b "redeemOption") as [ro|] eqn:E3; cbv beta iota zeta; [|left; reflexivity].
  destruct (get_prop b "customer") as [cs|] eqn:E4; cbv beta iota zeta; [|left; reflexivity].
  destruct (find_player pid (players s)) as [p|] eqn:E5; cbv beta iota zeta; [|left; reflexivity].
  destruct (p_sold p); cbv beta iota zeta; [left; reflexivity|].
  destruct (negb (truthy cu)); cbv beta iota zeta; [left; reflexivity|].
  destruct (truthy cs); cbv beta iota zeta;
    [destruct (get_prop cs "email") as [em|]; cbv beta iota zeta;
       [destruct (negb (truthy em)); cbv beta iota zeta; [left; reflexivity|]|left; reflexivity]
    |left; reflexivity].
  created_after_gateway s Hn.
Qed.

Lemma create_invoice_orders cfg en ev s :
  order_created en ev s (snd (create_invoice cfg en ev s)).
Proof.
  unfold order_created, create_invoice, parse_body, bind, prop, ret, throw, get_state, modify.
  destruct (ev_body ev) as [b|] eqn:Hb; cbv beta iota zeta; [|left; reflexivity].
  destruct (get_prop b "playerId") as [pid|] eqn:E1; cbv beta iota zeta; [|left; reflexivity].
  destruct (get_prop b "redeemOption") as [ro|] eqn:E3; cbv beta iota zeta; [|left; reflexivity].
  destruct (get_prop b "customer") as [cs|] eqn:E4; cbv beta iota zeta; [|left; reflexivity].
  destruct (find_player pid (players s)) as [p|] eqn:E5; cbv beta iota zeta; [|left; reflexivity].
  destruct (p_sold p); cbv beta iota zeta; [left; reflexivity|].
  created_after_gateway s Hn.
Qed.

(** C9. A [POST /api/create-payment] or [/api/create-invoice] either
    leaves the orders as they are or stores one record, under the id
    ["NASSR-" ++ Date.now() ++ "-" ++ item id], which is also its
    ["orderId"]; nothing else enters the id.  So two creations for
    items with the same id in the same millisecond get the same id, and
    the second record replaces the first in the order map. *)
Theorem order_id_collision (cfg : config) (en : env) (ev : event) (s : state) :
  httpMethod ev = "POST" ->
  resolve_path ev = "create-payment" \/ resolve_path ev = "create-invoice" ->
  order_created en ev s (snd (step cfg en ev s)) /\
  (forall (now : Z) (p : player), make_order_id now p = "NASSR-" ++ dec now ++ "-" ++ dec (p_id p)) /\
  (forall (en2 : env) (ev2 : event) (p1 p2 : player) (r1 r2 : order),
     let s1 := snd (step cfg en ev s) in
     let s2 := snd (step cfg en2 ev2 s1) in
     now_ms en2 = now_ms en -> p_id p2 = p_id p1 ->
     orders s1 = <[make_order_id (now_ms en) p1 := r1]> (orders s) ->
     orders s2 = <[make_order_id (now_ms en2) p2 := r2]> (orders s1) ->
     make_order_id (now_ms en2) p2 = make_order_id (now_ms en) p1 /\
     orders s2 = <[make_order_id (now_ms en) p1 := r2]> (orders s)).
Proof.
  intros Hm Hp. split; [|split].
  - destruct Hp as [Hp|Hp].
    + rewrite (step_create_payment cfg en ev s Hm Hp).
      assert (E : forall o : outcome response * state, snd (settle o) = snd o)
        by (intros [[] ?]; reflexivity).
      rewrite E. apply create_payment_orders.
    + rewrite (step_create_invoice cfg en ev s Hm Hp).
      assert (E : forall o : outcome response * state, snd (settle o) = snd o)
        by (intros [[] ?]; reflexivity).
      rewrite E. apply create_invoice_orders.
  - intros now p. reflexivity.
  - intros en2 ev2 p1 p2 r1 r2 s1 s2 Hnow Hid H1 H2.
    assert (Eid : make_order_id (now_ms en2) p2 = make_order_id (now_ms en) p1)
      by (unfold make_order_id; rewrite Hnow, Hid; reflexivity).
    split; [exact Eid|].
    rewrite H2, Eid, H1. apply insert_insert_eq.
Qed.

Lemma order_id_collision_witness :
  make_order_id 1729000000123 (mk_player 1 "كريستيانو رونالدو" "Cristiano Ronaldo" 189999 "0.75" false)
    = "NASSR-1729000000123-1" /\
  orders state_two_orders = <[ "NASSR-1729000000123-1" := order_second ]> (orders state0).
Proof.
  pose proof (proj2 (proj2 (order_id_collision cfg_demo en_demo (ev_create "create-payment" "1")
    state0 ltac:(reflexivity) ltac:(left; vm_compute; reflexivity)))
    en_same_ms (ev_create "create-invoice" "1")
    (mk_player 1 "كريستيانو رونالدو" "Cristiano Ronaldo" 189999 "0.75" false)
    (mk_player 1 "كريستيانو رونالدو" "Cristiano Ronaldo" 189999 "0.75" false)
    order_demo order_second eq_refl eq_refl
    ltac:(vm_compute; reflexivity) ltac:(vm_compute; reflexivity)) as [H1 H2].
  split; [vm_compute; reflexivity | exact H2].
Defined.

(** ** The signature check and unknown orders *)







(** C3 does not hold of the handler: for the payload
    [{"10": "a", "9": "b"}], a header carrying the HMAC of the
    lexicographically sorted serialization [{"10":"a","9":"b"}] is
    rejected with 400, because the handler signs [{"9":"b","10":"a"}];
    for [{"__proto__": 1, "a": 2}], the HMAC of [{"__proto__":1,"a":2}]
    is rejected too, because the handler signs [{"a":2}]. *)
Lemma ipn_signature_check_counterexample :
  let sig := hmac_sha512_hex "ipn-secret" (lex_sorted_json payload_index_keys) in
  let sig' := hmac_sha512_hex "ipn-secret" (lex_sorted_json payload_proto_key) in
  header (ev_ipn payload_index_keys (Some sig)) "x-nowpayments-sig" = Some sig /\
  json_stringify (sorted_payload (JObj payload_index_keys) ["10"; "9"])
    <> Some (lex_sorted_json payload_index_keys) /\
  step cfg_signed en_demo (ev_ipn payload_index_keys (Some sig)) state0
    = (err 400 "Invalid signature", state0) /\
  step cfg_signed en_demo (ev_ipn payload_proto_key (Some sig')) state0
    = (err 400 "Invalid signature", state0).
Proof.
  intros sig sig'. split; [reflexivity|split; [|split]].
  - vm_compute. discriminate.
  - vm_compute. reflexivity.
  - vm_compute. reflexivity.
Qed.




(** ** Normalization of redeem codes *)

Lemma bytes_of_string_app (a b : string) :
  bytes_of_string (a ++ b) = (bytes_of_string a ++ bytes_of_string b)%list.
Proof. induction a as [|c a IH]; simpl; [reflexivity|]. unfold bytes_of_string in *. simpl. now rewrite IH. Qed.

Lemma string_of_bytes_app (x y : list Z) :
  string_of_bytes (x ++ y)%list = string_of_bytes x ++ string_of_bytes y.
Proof. induction x as [|b x IH]; simpl; [reflexivity|]. unfold string_of_bytes in *. simpl. now rewrite IH. Qed.

Lemma bytes_of_string_of_bytes (bs : list Z) :
  Forall is_byte bs -> bytes_of_string (string_of_bytes bs) = bs.
Proof.
  induction 1 as [|b bs Hb _ IH]; [reflexivity|].
  unfold bytes_of_string, string_of_bytes in *. simpl. rewrite IH.
  unfold is_byte in Hb. rewrite nat_ascii_embedding by lia. f_equal. lia.
Qed.

Lemma string_of_bytes_of_string (s : string) : string_of_bytes (bytes_of_string s) = s.
Proof.
  induction s as [|c s IH]; [reflexivity|].
  unfold bytes_of_string, string_of_bytes in *. simpl. rewrite IH.
  rewrite Nat2Z.id, ascii_nat_embedding. reflexivity.
Qed.

(** *** Decoding and uppercasing *)

Lemma utf8_head_len (l : list Z) (cp : Z) (n : nat) :
  utf8_head l = Some (cp, n) -> (1 <= n <= length l)%nat.
Proof.
  destruct l as [|b0 [|b1 [|b2 [|b3 l]]]]; cbn [utf8_head]; intros H; try discriminate;
    repeat match type of H with
    | context [if ?c then _ else _] => destruct c
    end; try discriminate; inversion H; subst; simpl; lia.
Qed.

Ltac head_cases H :=
  repeat match goal with
  | |- context [if ?c then _ else _] =>
      let E := fresh "E" in destruct c eqn:E; rewrite ?E in H; try discriminate
  end.

Lemma utf8_head_app (a r : list Z) (cp : Z) (n : nat) :
  utf8_head a = Some (cp, n) -> utf8_head (a ++ r)%list = Some (cp, n).
Proof.
  destruct a as [|b0 [|b1 [|b2 [|b3 a]]]]; cbn [utf8_head app]; intros H; try discriminate;
    head_cases H; try exact H.
Qed.

Lemma utf8_decode_fuel (f1 f2 : nat) (l : list Z) :
  (length l <= f1)%nat -> (length l <= f2)%nat -> utf8_decode f1 l = utf8_decode f2 l.
Proof.
  revert f2 l. induction f1 as [|f1 IH]; intros f2 l H1 H2.
  - destruct l; [|simpl in H1; lia]. destruct f2; reflexivity.
  - destruct f2 as [|f2]; [destruct l; [reflexivity|simpl in H2; lia]|].
    destruct l as [|b r]; [reflexivity|]. cbn [utf8_decode].
    destruct (utf8_head (b :: r)) as [[cp n]|] eqn:E.
    + apply utf8_head_len in E. f_equal. apply IH; rewrite List.length_skipn; simpl in *; lia.
    + f_equal. apply IH; simpl in *; lia.
Qed.

Lemma decode_cons (b : Z) (r : list Z) :
  utf8_decode (length (b :: r)) (b :: r) =
  match utf8_head (b :: r) with
  | Some (cp, n) => inl cp :: utf8_decode (length (skipn n (b :: r))) (skipn n (b :: r))
  | None => inr b :: utf8_decode (length r) r
  end.
Proof.
  cbn [length utf8_decode].
  destruct (utf8_head (b :: r)) as [[cp n]|] eqn:E; [|reflexivity].
  f_equal. apply utf8_head_len in E. apply utf8_decode_fuel; rewrite List.length_skipn; simpl in *; lia.
Qed.

Lemma decode_app (a r : list Z) :
  no_raw (utf8_decode (length a) a) = true ->
  (utf8_decode (length (a ++ r)) (a ++ r) = utf8_decode (length a) a ++ utf8_decode (length r) r)%list.
Proof.
  remember (length a) as m eqn:Hm. revert a Hm.
  induction m as [m IH] using lt_wf_ind. intros a Hm Hraw. subst m.
  destruct a as [|b a]; [reflexivity|].
  rewrite decode_cons in Hraw. change ((b :: a) ++ r)%list with (b :: (a ++ r))%list. rewrite !decode_cons.
  destruct (utf8_head (b :: a)) as [[cp n]|] eqn:E; [|discriminate].
  pose proof (utf8_head_app _ r _ _ E) as E'. cbn [app] in E'. rewrite E'.
  apply utf8_head_len in E.
  assert (Hs : (skipn n (b :: a ++ r) = skipn n (b :: a) ++ r)%list).
  { change (b :: a ++ r)%list with ((b :: a) ++ r)%list. rewrite List.skipn_app.
    replace (n - length (b :: a))%nat with 0%nat by lia. reflexivity. }
  rewrite Hs. cbn [app]. f_equal.
  apply (IH (length (skipn n (b :: a)))); [rewrite List.length_skipn; lia | reflexivity |].
  cbn [no_raw forallb andb] in Hraw. exact Hraw.
Qed.

Lemma decode_raw (f : nat) (l : list Z) (b : Z) :
  (length l <= f)%nat -> In (inr b) (utf8_decode f l) -> In b l /\ (128 <= b)%Z.
Proof.
  revert l. induction f as [|f IH]; intros l Hl Hin.
  - destruct l; [destruct Hin|simpl in Hl; lia].
  - destruct l as [|b0 r]; [destruct Hin|]. cbn [utf8_decode] in Hin.
    destruct (utf8_head (b0 :: r)) as [[cp n]|] eqn:E.
    + destruct Hin as [Hc|Hin]; [discriminate|].
      apply utf8_head_len in E.
      apply IH in Hin as [Hb Hge]; [|rewrite List.length_skipn; simpl in *; lia].
      split; [|exact Hge]. rewrite <- (List.firstn_skipn n (b0 :: r)). apply List.in_or_app. right. exact Hb.
    + destruct Hin as [Hc|Hin].
      * injection Hc as <-. split; [left; reflexivity|].
        destruct (Z.lt_ge_cases b0 128%Z) as [Hlt|Hge]; [|exact Hge]. exfalso.
        unfold utf8_head in E. apply Z.ltb_lt in Hlt. rewrite Hlt in E. discriminate.
      * apply IH in Hin as [Hb Hge]; [|simpl in *; lia]. split; [right|]; assumption.
Qed.

Lemma js_to_upper_bytes (s : string) :
  js_to_upper s = string_of_bytes (flat_map upper_item
                    (utf8_decode (length (bytes_of_string s)) (bytes_of_string s))).
Proof. reflexivity. Qed.

Lemma upper_app (a r : list Z) :
  no_raw (utf8_decode (length a) a) = true ->
  (flat_map upper_item (utf8_decode (length (a ++ r)) (a ++ r)) =
   flat_map upper_item (utf8_decode (length a) a) ++ flat_map upper_item (utf8_decode (length r) r))%list.
Proof. intros H. rewrite decode_app by exact H. apply List.flat_map_app. Qed.

Lemma whitespace_upper :
  Forall (fun w => no_raw (utf8_decode (length w) w) = true /\
                   flat_map upper_item (utf8_decode (length w) w) = w) js_whitespace.
Proof. unfold js_whitespace. repeat (apply List.Forall_cons; [split; vm_compute; reflexivity|]). constructor. Qed.

Lemma whitespace_concat_upper (ws : list (list Z)) :
  Forall (fun w => In w js_whitespace) ws ->
  no_raw (utf8_decode (length (concat ws)) (concat ws)) = true /\
  flat_map upper_item (utf8_decode (length (concat ws)) (concat ws)) = concat ws.
Proof.
  induction 1 as [|w ws Hw _ [IH1 IH2]]; [split; reflexivity|].
  pose proof (proj1 (List.Forall_forall _ _) whitespace_upper w Hw) as [H1 H2].
  cbn [concat]. rewrite decode_app by exact H1. split.
  - unfold no_raw in *. rewrite List.forallb_app, H1. exact IH1.
  - rewrite List.flat_map_app, H2, IH2. reflexivity.
Qed.

Lemma bytes_of_string_of_bytes_map (bs : list Z) :
  bytes_of_string (string_of_bytes bs) = map (fun b => Z.of_nat (nat_of_ascii (ascii_of_nat (Z.to_nat b)))) bs.
Proof.
  unfold bytes_of_string, string_of_bytes. rewrite list_ascii_of_string_of_list_ascii, List.map_map.
  reflexivity.
Qed.

Lemma upper_ascii_no_raw (t key : string) :
  Forall (fun b => (b < 128)%Z) (bytes_of_string key) -> js_to_upper t = key ->
  no_raw (code_points t) = true.
Proof.
  intros Hkey Ht. unfold no_raw. apply List.forallb_forall. intros [cp|b] Hin; [reflexivity|exfalso].
  assert (Hu : In b (flat_map upper_item (code_points t))).
  { apply List.in_flat_map. exists (inr b). split; [exact Hin | left; reflexivity]. }
  unfold code_points in Hin. apply decode_raw in Hin as [Hb Hge]; [|lia].
  assert (Hbyte : (0 <= b < 256)%Z).
  { unfold bytes_of_string in Hb. apply List.in_map_iff in Hb as [c [<- _]].
    pose proof (nat_ascii_bounded c). lia. }
  rewrite <- Ht in Hkey. unfold js_to_upper in Hkey. rewrite bytes_of_string_of_bytes_map in Hkey.
  rewrite List.Forall_forall in Hkey.
  specialize (Hkey _ (List.in_map _ _ _ Hu)). cbn beta in Hkey.
  rewrite nat_ascii_embedding in Hkey by lia. lia.
Qed.

Lemma upper_ascii_cp (n : nat) : (n < 128)%nat ->
  flat_map utf8_encode (upper_cp (Z.of_nat n)) = [Z.of_nat (nat_of_ascii (upper_char (ascii_of_nat n)))].
Proof.
  intros H.
  assert (Hall : forallb (fun k => if List.list_eq_dec Z.eq_dec (flat_map utf8_encode (upper_cp (Z.of_nat k)))
                                     [Z.of_nat (nat_of_ascii (upper_char (ascii_of_nat k)))]
                                  then true else false) (List.seq 0 128) = true)
    by (vm_compute; reflexivity).
  rewrite List.forallb_forall in Hall.
  specialize (Hall n ltac:(apply List.in_seq; lia)).
  destruct (List.list_eq_dec _ _ _); [assumption|discriminate].
Qed.

Lemma js_to_upper_cons (c : ascii) (s : string) :
  (nat_of_ascii c < 128)%nat ->
  js_to_upper (String c s) = String (upper_char c) (js_to_upper s).
Proof.
  intros Hc. rewrite !js_to_upper_bytes.
  change (bytes_of_string (String c s)) with (Z.of_nat (nat_of_ascii c) :: bytes_of_string s).
  rewrite decode_cons.
  assert (Hh : utf8_head (Z.of_nat (nat_of_ascii c) :: bytes_of_string s)
               = Some (Z.of_nat (nat_of_ascii c), 1%nat)).
  { unfold utf8_head. replace (Z.of_nat (nat_of_ascii c) <? 128)%Z with true
      by (symmetry; apply Z.ltb_lt; lia). reflexivity. }
  rewrite Hh. cbn [skipn flat_map upper_item].
  rewrite (upper_ascii_cp _ Hc), ascii_nat_embedding. cbn [app].
  unfold string_of_bytes. cbn [map string_of_list_ascii].
  rewrite Nat2Z.id, ascii_nat_embedding. reflexivity.
Qed.

Lemma whitespace_nonempty : Forall (fun w => w <> []) js_whitespace.
Proof. unfold js_whitespace. repeat (apply List.Forall_cons || apply List.Forall_nil); discriminate. Qed.

(** The encodings are prefix-free: the first one that starts [w ++ r] is
    [w] itself, for the encodings read forwards and backwards. *)
Lemma whitespace_head : Forall (fun w => forall r, ws_head js_whitespace (w ++ r)%list = length w)
                               js_whitespace.
Proof. unfold js_whitespace at 2. repeat (apply List.Forall_cons; [intros r; reflexivity|]). constructor. Qed.

Lemma whitespace_head_rev :
  Forall (fun w => forall r, ws_head (map (@rev Z) js_whitespace) (w ++ r)%list = length w)
         (map (@rev Z) js_whitespace).
Proof.
  unfold js_whitespace at 2. simpl map at 2.
  repeat (apply List.Forall_cons; [intros r; reflexivity|]). constructor.
Qed.

Lemma skipn_length_app (w r : list Z) : skipn (length w) (w ++ r)%list = r.
Proof. induction w; simpl; auto. Qed.

Lemma strip_ws_stop (pats : list (list Z)) (fuel : nat) (l : list Z) :
  ws_head pats l = O -> strip_ws pats fuel l = l.
Proof. intros H. destruct fuel; simpl; [reflexivity|]. rewrite H. reflexivity. Qed.

Lemma strip_ws_concat (pats ws : list (list Z)) (fuel : nat) (r : list Z) :
  Forall (fun w => forall r, ws_head pats (w ++ r)%list = length w) pats ->
  Forall (fun w => w <> []) pats ->
  Forall (fun w => In w pats) ws -> (length ws <= fuel)%nat ->
  strip_ws pats fuel (concat ws ++ r)%list = strip_ws pats (fuel - length ws) r.
Proof.
  intros Hhead Hne Hws. revert fuel. induction Hws as [|w ws Hw _ IH]; intros fuel Hf.
  - simpl. rewrite Nat.sub_0_r. reflexivity.
  - destruct fuel as [|f]; simpl in Hf; [lia|].
    simpl. rewrite <- app_assoc.
    rewrite List.Forall_forall in Hhead, Hne.
    rewrite (Hhead w Hw). destruct w as [|x w']; [exfalso; exact (Hne [] Hw eq_refl)|].
    rewrite <- (IH f) by lia. f_equal. apply skipn_length_app.
Qed.

Lemma concat_length_ge (pats ws : list (list Z)) :
  Forall (fun w => w <> []) pats -> Forall (fun w => In w pats) ws ->
  (length ws <= length (concat ws))%nat.
Proof.
  intros Hne Hws. rewrite List.Forall_forall in Hne. induction Hws as [|w ws Hw _ IH]; simpl; [lia|].
  rewrite length_app. specialize (Hne w Hw). destruct w; [congruence|]. simpl. lia.
Qed.

Lemma rev_concat_Z (ws : list (list Z)) : rev (concat ws) = concat (rev (map (@rev Z) ws)).
Proof.
  induction ws as [|w ws IH]; [reflexivity|].
  simpl. rewrite rev_app_distr, IH, concat_app. simpl. rewrite app_nil_r. reflexivity.
Qed.

Lemma Forall_In_concat (P : Z -> Prop) (ws : list (list Z)) :
  Forall (Forall P) js_whitespace -> Forall (fun w => In w js_whitespace) ws ->
  Forall P (concat ws).
Proof.
  intros HP Hws. rewrite List.Forall_forall in HP. induction Hws as [|w ws Hw _ IH]; simpl; [constructor|].
  apply Forall_app. auto.
Qed.

Lemma whitespace_bytes : Forall (Forall is_byte) js_whitespace.
Proof.
  unfold js_whitespace. repeat (apply List.Forall_cons || apply List.Forall_nil); unfold is_byte; lia.
Qed.

Lemma upper_around_whitespace (ws1 ws2 : list (list Z)) (t : string) :
  Forall (fun w => In w js_whitespace) ws1 -> Forall (fun w => In w js_whitespace) ws2 ->
  no_raw (code_points t) = true ->
  js_to_upper (string_of_bytes (concat ws1) ++ t ++ string_of_bytes (concat ws2))%string =
  (string_of_bytes (concat ws1) ++ js_to_upper t ++ string_of_bytes (concat ws2))%string.
Proof.
  intros H1 H2 Ht.
  pose proof (Forall_In_concat _ _ whitespace_bytes H1) as B1.
  pose proof (Forall_In_concat _ _ whitespace_bytes H2) as B2.
  destruct (whitespace_concat_upper ws1 H1) as [R1 U1].
  destruct (whitespace_concat_upper ws2 H2) as [_ U2].
  unfold code_points in Ht.
  rewrite !js_to_upper_bytes, !bytes_of_string_app, !bytes_of_string_of_bytes by assumption.
  rewrite upper_app by exact R1. rewrite upper_app by exact Ht.
  rewrite U1, U2, !string_of_bytes_app. reflexivity.
Qed.

Lemma seed_key_bytes (key : string) :
  In key (map fst seed_codes) ->
  (forall r, ws_head js_whitespace (bytes_of_string key ++ r)%list = O) /\
  (forall r, ws_head (map (@rev Z) js_whitespace) (rev (bytes_of_string key) ++ r)%list = O) /\
  Forall (fun b => (b < 128)%Z) (bytes_of_string key).
Proof.
  simpl. intros H.
  repeat destruct H as [<-|H]; [..|destruct H];
    (split; [intros r; reflexivity | split; [intros r; reflexivity |]]);
    rewrite List.Forall_forall; intros x Hx; vm_compute in Hx;
    repeat destruct Hx as [<-|Hx]; try destruct Hx; lia.
Qed.

(** [code.toUpperCase().trim()] maps any casing of a seeded code, with
    any JavaScript whitespace around it, to the seeded key. *)
Lemma normalize_seed_variant (ws1 ws2 : list (list Z)) (t key : string) :
  Forall (fun w => In w js_whitespace) ws1 -> Forall (fun w => In w js_whitespace) ws2 ->
  In key (map fst seed_codes) -> js_to_upper t = key ->
  normalize_code (string_of_bytes (concat ws1) ++ t ++ string_of_bytes (concat ws2)) = key.
Proof.
  intros H1 H2 Hkey Ht.
  destruct (seed_key_bytes key Hkey) as [Hfront [Hback Hlow]].
  pose proof (Forall_In_concat _ _ whitespace_bytes H1) as B1.
  pose proof (Forall_In_concat _ _ whitespace_bytes H2) as B2.
  pose proof (concat_length_ge _ _ whitespace_nonempty H1) as Len1.
  pose proof (concat_length_ge _ _ whitespace_nonempty H2) as Len2.
  unfold normalize_code.
  rewrite upper_around_whitespace by (try assumption; exact (upper_ascii_no_raw t key Hlow Ht)).
  rewrite Ht.
  unfold js_trim. rewrite !bytes_of_string_app, !bytes_of_string_of_bytes by assumption.
  rewrite (strip_ws_concat js_whitespace ws1) by
    (first [exact whitespace_head | exact whitespace_nonempty | assumption
           | rewrite !length_app; lia]).
  rewrite (strip_ws_stop js_whitespace _ (bytes_of_string key ++ concat ws2)%list) by apply Hfront.
  rewrite rev_app_distr, rev_concat_Z.
  assert (H2' : Forall (fun w => In w (map (@rev Z) js_whitespace)) (rev (map (@rev Z) ws2))).
  { rewrite List.Forall_forall in H2 |- *. intros w Hw.
    apply in_rev in Hw. try rewrite rev_involutive in Hw.
    apply in_map_iff in Hw as [w0 [<- Hw0]]. apply in_map. exact (H2 w0 Hw0). }
  rewrite (strip_ws_concat (map (@rev Z) js_whitespace) (rev (map (@rev Z) ws2))).
  - rewrite (strip_ws_stop (map (@rev Z) js_whitespace) _ (rev (bytes_of_string key)))
      by (rewrite <- (app_nil_r (rev (bytes_of_string key))); apply Hback).
    rewrite rev_involutive. apply string_of_bytes_of_string.
  - exact whitespace_head_rev.
  - apply List.Forall_forall. intros w Hw Hr.
    apply in_map_iff in Hw as [w0 [<- Hw0]].
    apply (proj1 (List.Forall_forall _ _) whitespace_nonempty w0 Hw0).
    rewrite <- (rev_involutive w0), Hr. reflexivity.
  - exact H2'.
  - rewrite length_rev, length_map, !length_app. lia.
Qed.

(** C6 (amended). Redeem and lookup resolve a code through
    [code.toUpperCase().trim()], with the full Unicode uppercase mapping:
    every text whose uppercase form is a seeded key (any casing of it,
    and also text such as ["naßr-r7cr-gold-2025"], since [ß] uppercases
    to [SS]), with any JavaScript whitespace around it, normalizes to
    that key; a complete redeem request (a non-empty code and a
    destination address) whose normalized code is not a stored key answers NotFound
    (404) with the state unchanged; and [GET /api/redeem/:code] on such
    a code answers 404 with the state unchanged. *)
Theorem redeem_code_normalization :
  (forall (ws1 ws2 : list (list Z)) (t key : string),
     Forall (fun w => In w js_whitespace) ws1 -> Forall (fun w => In w js_whitespace) ws2 ->
     In key (map fst seed_codes) -> js_to_upper t = key ->
     normalize_code (string_of_bytes (concat ws1) ++ t ++ string_of_bytes (concat ws2)) = key) /\
  (forall (cfg : config) (en : env) (ev : event) (s : state) (b : jsval) (c : string) (la em : jsval),
     httpMethod ev = "POST" -> resolve_path ev = "redeem" -> ev_body ev = Some b ->
     get_prop b "code" = Some (JStr c) -> c <> "" ->
     get_prop b "lightningAddress" = Some la -> truthy la = true ->
     get_prop b "email" = Some em ->
     redeemCodes s !! normalize_code c = None ->
     step cfg en ev s = (respond 404 (JObj [("error", JStr msg_invalid_error);
                                            ("message", JStr msg_invalid_message)]), s)) /\
  (forall (cfg : config) (en : env) (ev : event) (s : state) (rest : string),
     httpMethod ev = "GET" -> resolve_path ev = "redeem/" ++ rest ->
     redeemCodes s !! normalize_code rest = None ->
     step cfg en ev s = (err 404 "Code not found", s)).
Proof.
  split; [|split].
  - exact normalize_seed_variant.
  - intros cfg en ev s b c la em Hm Hp Hb Hc Hne Hla Htr Hem Hl.
    rewrite (redeem_step cfg en ev s b c la em Hm Hp Hb Hc Hne Hla Htr Hem), Hl. reflexivity.
  - intros cfg en ev s rest Hm Hp Hl. rewrite (step_redeem_info cfg en ev s rest Hm Hp).
    unfold redeem_info. rewrite replace_first_prefix.
    unfold bind, get_state, ret, settle. rewrite Hl. reflexivity.
Qed.

Lemma redeem_code_normalization_witness :
  normalize_code (string_of_bytes (concat [[32]; [9]]%Z) ++ "naßr-r7cr-Gold-2025"
                  ++ string_of_bytes (concat [[227; 128; 128]; [10]]%Z))
    = "NASSR-R7CR-GOLD-2025"%string /\
  step cfg_demo en_demo (ev_redeem_info "NASSR-XXXX-NONE-2025") state0
    = (err 404 "Code not found", state0).
Proof.
  split.
  - exact (proj1 redeem_code_normalization [[32]; [9]]%Z [[227; 128; 128]; [10]]%Z
      "naßr-r7cr-Gold-2025" "NASSR-R7CR-GOLD-2025"
      ltac:(repeat apply List.Forall_cons; try apply List.Forall_nil; simpl;
             repeat (first [left; reflexivity | right]))
      ltac:(repeat apply List.Forall_cons; try apply List.Forall_nil; simpl;
             repeat (first [left; reflexivity | right]))
      ltac:(simpl; left; reflexivity) ltac:(vm_compute; reflexivity)).
  - exact (proj2 (proj2 redeem_code_normalization) cfg_demo en_demo
      (ev_redeem_info "NASSR-XXXX-NONE-2025") state0 "NASSR-XXXX-NONE-2025"
      ltac:(reflexivity) ltac:(vm_compute; reflexivity) ltac:(vm_compute; reflexivity)).
Defined.

(** C6 as stated fails: a redeem request for a code that is not stored,
    sent without a destination address, is answered 400 (code and
    address required), not NotFound. *)
Lemma redeem_code_normalization_counterexample :
  redeemCodes state0 !! normalize_code "NASSR-XXXX-NONE-2025" = None /\
  step cfg_demo en_demo (ev_redeem_no_address "NASSR-XXXX-NONE-2025") state0
    = (respond 400 (JObj [("error", JStr msg_required_error);
                          ("message", JStr msg_required_message)]), state0).
Proof. split; vm_compute; reflexivity. Qed.

(** ** Frames: what each request leaves unchanged *)

Section Frame.
Variable R : state -> state -> Prop.
Hypothesis R_refl : forall s, R s s.
Hypothesis R_trans : forall s1 s2 s3, R s1 s2 -> R s2 s3 -> R s1 s3.

Ltac fpres :=
  repeat first
    [ progress cbv zeta
    | apply (pres_ret R R_refl) | apply (pres_throw R R_refl) | apply (pres_get R R_refl)
    | apply (pres_prop R R_refl) | apply (pres_parse_body R R_refl)
    | apply pres_modify; intro; solve [auto]
    | apply (pres_bind R R_trans); [ | intro ]
    | apply (pres_try_catch R R_trans); [ | intro ]
    | case_match ].

Lemma frame_nowpayments cfg en e m b :
  (forall r s, R s (log_call r s)) -> preserves R (nowpaymentsRequest cfg en e m b).
Proof using R_refl R_trans. intros Hl. unfold nowpaymentsRequest. fpres. Qed.

Lemma frame_create_payment cfg en ev :
  (forall e m b, preserves R (nowpaymentsRequest cfg en e m b)) ->
  (forall k o s, R s (set_orders (<[k := o]> (orders s)) s)) ->
  preserves R (create_payment cfg en ev).
Proof using R_refl R_trans. intros Hnp Ho. unfold create_payment, customer_missing. fpres; apply Hnp. Qed.

Lemma frame_create_invoice cfg en ev :
  (forall e m b, preserves R (nowpaymentsRequest cfg en e m b)) ->
  (forall k o s, R s (set_orders (<[k := o]> (orders s)) s)) ->
  preserves R (create_invoice cfg en ev).
Proof using R_refl R_trans. intros Hnp Ho. unfold create_invoice. fpres; apply Hnp. Qed.

Lemma frame_ipn cfg ev :
  (forall a b c s, R s (apply_ipn a b c s)) -> preserves R (ipn cfg ev).
Proof using R_refl R_trans. intros Hi. unfold ipn, ipn_verify. fpres. Qed.

Lemma frame_redeem en ev :
  (forall k cd cd0 s, redeemCodes s !! k = Some cd0 ->
     R s (set_codes (<[k := cd]> (redeemCodes s)) s)) ->
  preserves R (redeem en ev).
Proof using R_refl R_trans.
  intros Hc s. unfold redeem, parse_body, bind, prop, ret, throw, get_state, modify.
  destruct (ev_body ev) as [b|]; cbv beta iota; [|apply R_refl].
  destruct (get_prop b "code") as [code|]; cbv beta iota; [|apply R_refl].
  destruct (get_prop b "lightningAddress") as [la|]; cbv beta iota; [|apply R_refl].
  destruct (get_prop b "email") as [em|]; cbv beta iota; [|apply R_refl].
  destruct (negb (truthy code) || negb (truthy la)); cbv beta iota; [apply R_refl|].
  destruct code as [| | | |c| |]; cbv beta iota; try apply R_refl.
  destruct (redeemCodes s !! normalize_code c) as [cd|] eqn:E; cbv beta iota; [|apply R_refl].
  destruct (rc_redeemed cd); cbv beta iota; [apply R_refl|]. exact (Hc _ _ _ s E).
Qed.

Lemma frame_route cfg en ev method path :
  (forall e m b, preserves R (nowpaymentsRequest cfg en e m b)) ->
  (method = "POST" -> path = "create-payment" \/ path = "create-invoice" ->
     forall k o s, R s (set_orders (<[k := o]> (orders s)) s)) ->
  (method = "POST" -> path = "ipn" -> forall a b c s, R s (apply_ipn a b c s)) ->
  (method = "POST" -> path = "redeem" ->
     forall k cd cd0 s, redeemCodes s !! k = Some cd0 ->
       R s (set_codes (<[k := cd]> (redeemCodes s)) s)) ->
  preserves R (route cfg en ev method path).
Proof using R_refl R_trans.
  intros Hnp Ho Hi Hc. unfold route. cbv zeta.
  repeat match goal with
  | |- preserves R (if ?b then _ else _) => destruct b eqn:?
  end;
  repeat match goal with
  | H : (_ && _) = true |- _ => apply andb_prop in H as [? ?]
  | H : String.eqb _ _ = true |- _ => apply String.eqb_eq in H
  end; subst.
  - unfold api_status. fpres; apply Hnp.
  - unfold passthrough. fpres; apply Hnp.
  - unfold passthrough. fpres; apply Hnp.
  - unfold passthrough. fpres; apply Hnp.
  - fpres.
  - apply frame_create_payment; [exact Hnp | intros; apply Ho; auto].
  - apply frame_create_invoice; [exact Hnp | intros; apply Ho; auto].
  - unfold payment_status. fpres; apply Hnp.
  - apply frame_ipn. auto.
  - unfold get_order. fpres.
  - apply frame_redeem. intros; eapply Hc; eauto.
  - unfold redeem_info. fpres.
  - fpres.
Qed.

Lemma frame_step cfg en ev s :
  preserves R (route cfg en ev (httpMethod ev) (resolve_path ev)) ->
  R s (snd (step cfg en ev s)).
Proof using R_refl R_trans.
  intros Hr. unfold step, handler, settle. cbv zeta.
  destruct (String.eqb (httpMethod ev) "OPTIONS"); [apply R_refl|].
  unfold try_catch. specialize (Hr s).
  destruct (route _ _ _ _ _ s) as [[r|e] s']; simpl in *; exact Hr.
Qed.

Lemma frame_run cfg reqs s :
  (forall en ev s, R s (snd (step cfg en ev s))) -> R s (snd (run cfg reqs s)).
Proof using R_refl R_trans.
  intros Hs. revert s. induction reqs as [|[en ev] reqs IH]; intros s; simpl; [apply R_refl|].
  pose proof (Hs en ev s) as H1.
  destruct (step cfg en ev s) as [r s1]. specialize (IH s1).
  destruct (run cfg reqs s1) as [rs s2]. simpl in *. eauto.
Qed.
End Frame.

Lemma redeemCodes_apply_ipn a b c s : redeemCodes (apply_ipn a b c s) = redeemCodes s.
Proof. unfold apply_ipn. repeat case_match; reflexivity. Qed.

Lemma gw_calls_apply_ipn a b c s : gw_calls (apply_ipn a b c s) = gw_calls s.
Proof. unfold apply_ipn. repeat case_match; reflexivity. Qed.

Lemma eq_frame_refl {A} (f : state -> A) (s : state) : f s = f s.
Proof. reflexivity. Qed.

Lemma eq_frame_trans {A} (f : state -> A) (s1 s2 s3 : state) :
  f s2 = f s1 -> f s3 = f s2 -> f s3 = f s1.
Proof. congruence. Qed.

(** A request that is not [POST /api/redeem] leaves the redeem codes unchanged. *)
Theorem redeem_codes_frame (cfg : config) (en : env) (ev : event) (s : state) :
  ~ (httpMethod ev = "POST" /\ resolve_path ev = "redeem") ->
  redeemCodes (snd (step cfg en ev s)) = redeemCodes s.
Proof.
  intros Hn.
  apply (frame_step (fun s s' => redeemCodes s' = redeemCodes s) (eq_frame_refl redeemCodes) (eq_frame_trans redeemCodes)).
  apply (frame_route _ (eq_frame_refl _) (eq_frame_trans _)).
  - intros; apply (frame_nowpayments _ (eq_frame_refl _) (eq_frame_trans _)); intros; reflexivity.
  - intros; reflexivity.
  - intros; apply redeemCodes_apply_ipn.
  - intros Hm Hp. exfalso. exact (Hn (conj Hm Hp)).
Qed.

(** A request that is not [POST] to create-payment, create-invoice or ipn leaves the orders unchanged. *)
Theorem orders_frame (cfg : config) (en : env) (ev : event) (s : state) :
  ~ (httpMethod ev = "POST" /\
     (resolve_path ev = "create-payment" \/ resolve_path ev = "create-invoice"
      \/ resolve_path ev = "ipn")) ->
  orders (snd (step cfg en ev s)) = orders s.
Proof.
  intros Hn.
  apply (frame_step (fun s s' => orders s' = orders s) (eq_frame_refl orders) (eq_frame_trans orders)).
  apply (frame_route _ (eq_frame_refl _) (eq_frame_trans _)).
  - intros; apply (frame_nowpayments _ (eq_frame_refl _) (eq_frame_trans _)); intros; reflexivity.
  - intros Hm [Hp|Hp]; exfalso; apply Hn; auto.
  - intros Hm Hp. exfalso; apply Hn; auto.
  - intros; reflexivity.
Qed.

(** A request that is not [POST /api/ipn] leaves the card catalog unchanged. *)
Theorem players_frame (cfg : config) (en : env) (ev : event) (s : state) :
  ~ (httpMethod ev = "POST" /\ resolve_path ev = "ipn") ->
  players (snd (step cfg en ev s)) = players s.
Proof.
  intros Hn.
  apply (frame_step (fun s s' => players s' = players s) (eq_frame_refl players) (eq_frame_trans players)).
  apply (frame_route _ (eq_frame_refl _) (eq_frame_trans _)).
  - intros; apply (frame_nowpayments _ (eq_frame_refl _) (eq_frame_trans _)); intros; reflexivity.
  - intros; reflexivity.
  - intros Hm Hp. exfalso. exact (Hn (conj Hm Hp)).
  - intros; reflexivity.
Qed.

(** Without an API key the handler never calls NOWPayments, over any sequence of requests. *)
Theorem no_api_key_no_fetch (cfg : config) (reqs : list (env * event)) (s : state) :
  env_set (NOWPAYMENTS_API_KEY cfg) = false ->
  gw_calls (snd (run cfg reqs s)) = gw_calls s.
Proof.
  intros Hk.
  apply (frame_run (fun s s' => gw_calls s' = gw_calls s) (eq_frame_refl gw_calls) (eq_frame_trans gw_calls)).
  intros en ev s0.
  apply (frame_step (fun s s' => gw_calls s' = gw_calls s) (eq_frame_refl gw_calls) (eq_frame_trans gw_calls)).
  apply (frame_route _ (eq_frame_refl _) (eq_frame_trans _)).
  - intros e m b s1. unfold nowpaymentsRequest. rewrite Hk. reflexivity.
  - intros; reflexivity.
  - intros; apply gw_calls_apply_ipn.
  - intros; reflexivity.
Qed.

Lemma keys_kept_apply_ipn a b c s : keys_kept s (apply_ipn a b c s).
Proof.
  unfold keys_kept, apply_ipn. repeat case_match; simpl; split; try tauto; intros k' Hk';
    try exact Hk'.
  all: destruct (decide (k' = s0)) as [->|Hne];
    [rewrite lookup_insert_eq; eauto | rewrite lookup_insert_ne by congruence; exact Hk'].
Qed.

(** Over any sequence of requests no order id disappears and the set of redeem codes stays the same. *)
Theorem keys_never_removed (cfg : config) (reqs : list (env * event)) (s : state) :
  keys_kept s (snd (run cfg reqs s)).
Proof.
  apply frame_run.
  - intros s0; split; [auto | tauto].
  - intros s1 s2 s3 [H1 H2] [H3 H4]; split; [auto | intros k; rewrite H4, H2; tauto].
  - intros en ev s0. apply frame_step.
    + intros s1; split; [auto | tauto].
    + intros s1 s2 s3 [H1 H2] [H3 H4]; split; [auto | intros k; rewrite H4, H2; tauto].
    + apply frame_route.
      * intros s1; split; [auto | tauto].
      * intros s1 s2 s3 [H1 H2] [H3 H4]; split; [auto | intros k; rewrite H4, H2; tauto].
      * intros; apply frame_nowpayments.
        -- intros s1; split; [auto | tauto].
        -- intros s1 s2 s3 [H1 H2] [H3 H4]; split; [auto | intros k; rewrite H4, H2; tauto].
        -- intros r s1; split; simpl; [auto | tauto].
      * intros _ _ k o s1; split; simpl; [|tauto].
        intros k' Hk'. destruct (decide (k' = k)) as [->|Hne];
          [rewrite lookup_insert_eq; eauto | rewrite lookup_insert_ne by congruence; exact Hk'].
      * intros _ _; apply keys_kept_apply_ipn.
      * intros _ _ k cd cd0 s1 Hl; split; simpl; [auto|].
        intros k'. destruct (decide (k' = k)) as [->|Hne];
          [rewrite lookup_insert_eq, Hl; split; eauto | rewrite lookup_insert_ne by congruence; tauto].
Qed.
(** ** Edge cases of the routes *)

(** [OPTIONS] is answered 200 with an empty object; any method other than GET, POST and OPTIONS gets the 404 "Route not found" answer; neither changes the state. *)
Theorem method_fallbacks (cfg : config) (en : env) (ev : event) (s : state) :
  (httpMethod ev = "OPTIONS" -> step cfg en ev s = (respond 200 (JObj []), s)) /\
  (httpMethod ev <> "GET" -> httpMethod ev <> "POST" -> httpMethod ev <> "OPTIONS" ->
   step cfg en ev s = (respond 404 (JObj [("error", JStr "Route not found");
                                          ("path", JStr (resolve_path ev));
                                          ("method", JStr (httpMethod ev))]), s)).
Proof.
  split.
  - intros H. unfold step, handler. rewrite H. reflexivity.
  - intros HG HP HO. rewrite step_not_options by exact HO. unfold route. cbv zeta.
    apply String.eqb_neq in HG, HP. rewrite HG, HP. reflexivity.
Qed.

(** A POST to create-payment, create-invoice, ipn or redeem with no body or the body [null] ends in the catch block (a 500), with the state unchanged. *)
Theorem post_body_not_object (cfg : config) (en : env) (ev : event) (s : state) :
  httpMethod ev = "POST" ->
  resolve_path ev = "create-payment" \/ resolve_path ev = "create-invoice" \/
  resolve_path ev = "ipn" \/ resolve_path ev = "redeem" ->
  ev_body ev = None \/ ev_body ev = Some JNull ->
  exists e, step cfg en ev s = (on_error e, s).
Proof.
  intros Hm Hp Hb.
  destruct Hp as [Hp|[Hp|[Hp|Hp]]];
    [ rewrite (step_create_payment cfg en ev s Hm Hp); unfold create_payment
    | rewrite (step_create_invoice cfg en ev s Hm Hp); unfold create_invoice
    | rewrite (step_ipn cfg en ev s Hm Hp); unfold ipn, ipn_verify
    | rewrite (step_redeem cfg en ev s Hm Hp); unfold redeem ];
    monad_simpl; destruct Hb as [Hb|Hb]; rewrite Hb; cbv beta iota;
    try (eexists; reflexivity).
  all: destruct (env_set _); simpl; eexists; reflexivity.
Qed.

Lemma find_player_non_number (v : jsval) (ps : list player) :
  (forall r, v <> JNum r) -> find_player v ps = None.
Proof.
  intros Hv. unfold find_player. induction ps as [|p ps IH]; [reflexivity|].
  cbn [List.find]. destruct v; try (exact IH); [exfalso; eapply Hv; reflexivity].
Qed.

(** A creation request whose [playerId] is not a number (for instance the string ["1"]) is answered 404 "Card not found", with the state unchanged. *)
Theorem create_unknown_card (cfg : config) (en : env) (ev : event) (s : state)
    (b : list (string * jsval)) :
  httpMethod ev = "POST" ->
  resolve_path ev = "create-payment" \/ resolve_path ev = "create-invoice" ->
  ev_body ev = Some (JObj b) ->
  (forall r, assoc "playerId" b <> Some (JNum r)) ->
  step cfg en ev s = (err 404 "Card not found", s).
Proof.
  intros Hm Hp Hb Hn.
  assert (Hf : find_player (default JUndef (assoc "playerId" b)) (players s) = None).
  { apply find_player_non_number. intros r.
    destruct (assoc "playerId" b) eqn:E; simpl; [|discriminate].
    intros ->. exact (Hn r eq_refl). }
  destruct Hp as [Hp|Hp];
    [ rewrite (step_create_payment cfg en ev s Hm Hp); unfold create_payment
    | rewrite (step_create_invoice cfg en ev s Hm Hp); unfold create_invoice ];
    monad_simpl; rewrite Hb; cbv beta iota; cbn [get_prop]; cbv beta iota;
    rewrite Hf; reflexivity.
Qed.

Lemma truthy_get_prop (v : jsval) (k : string) :
  truthy v = true -> exists x, get_prop v k = Some x.
Proof. intros H. destruct v; try discriminate; simpl; repeat case_match; eauto. Qed.

(** For an unsold card, create-payment without a truthy currency is answered 400 "Currency is required", and with one but without a truthy customer email 400 "Customer email is required"; the state is unchanged. *)
Theorem create_payment_validation (cfg : config) (en : env) (ev : event) (s : state)
    (b : list (string * jsval)) (p : player) :
  httpMethod ev = "POST" -> resolve_path ev = "create-payment" -> ev_body ev = Some (JObj b) ->
  find_player (default JUndef (assoc "playerId" b)) (players s) = Some p -> p_sold p = false ->
  (truthy (default JUndef (assoc "currency" b)) = false ->
     step cfg en ev s = (err 400 "Currency is required", s)) /\
  (truthy (default JUndef (assoc "currency" b)) = true ->
   match get_prop (default JUndef (assoc "customer" b)) "email" with
   | Some e => truthy e
   | None => false
   end = false ->
     step cfg en ev s = (err 400 "Customer email is required", s)).
Proof.
  intros Hm Hp Hb Hf Hs.
  rewrite (step_create_payment cfg en ev s Hm Hp). unfold create_payment, customer_missing.
  monad_simpl. rewrite Hb. cbv beta iota. cbn [get_prop]. cbv beta iota.
  rewrite Hf, Hs. cbv beta iota. split.
  - intros Hc. rewrite Hc. reflexivity.
  - intros Hc He. rewrite Hc. cbv beta iota. simpl negb. cbv beta iota.
    destruct (truthy (default JUndef (assoc "customer" b))) eqn:Ht; [|reflexivity].
    destruct (truthy_get_prop _ "email" Ht) as [x Hx]. rewrite Hx in *.
    rewrite He. reflexivity.
Qed.

(** A redeem request whose code is truthy but not a string ends in the catch block (a 500), with the state unchanged. *)
Theorem redeem_non_string_code (cfg : config) (en : env) (ev : event) (s : state)
    (b code la : jsval) :
  httpMethod ev = "POST" -> resolve_path ev = "redeem" -> ev_body ev = Some b ->
  get_prop b "code" = Some code -> truthy code = true -> (forall c, code <> JStr c) ->
  get_prop b "lightningAddress" = Some la -> truthy la = true ->
  exists e, step cfg en ev s = (on_error e, s).
Proof.
  intros Hm Hp Hb Hc Htc Hns Hl Htl.
  destruct (get_prop_defined b "code" "email" code Hc) as [em He].
  rewrite (step_redeem cfg en ev s Hm Hp). unfold redeem. monad_simpl.
  rewrite Hb. cbv beta iota. rewrite Hc, Hl, He. cbv beta iota.
  rewrite Htc, Htl. simpl negb. cbv beta iota.
  destruct code; try (eexists; reflexivity). exfalso; eapply Hns; reflexivity.
Qed.

(** A complete redeem request changes at most the record of its normalized code: every other code, the orders, the catalog and the outbound calls are unchanged. *)
Theorem redeem_touches_one_code (cfg : config) (en : env) (ev : event) (s : state)
    (b : jsval) (c : string) (la em : jsval) :
  httpMethod ev = "POST" -> resolve_path ev = "redeem" -> ev_body ev = Some b ->
  get_prop b "code" = Some (JStr c) -> c <> "" ->
  get_prop b "lightningAddress" = Some la -> truthy la = true ->
  get_prop b "email" = Some em ->
  let s' := snd (step cfg en ev s) in
  (forall k, k <> normalize_code c -> redeemCodes s' !! k = redeemCodes s !! k) /\
  orders s' = orders s /\ players s' = players s /\ gw_calls s' = gw_calls s.
Proof.
  intros Hm Hp Hb Hc Hne Hla Htr Hem s'. subst s'.
  rewrite (redeem_step cfg en ev s b c la em Hm Hp Hb Hc Hne Hla Htr Hem).
  destruct (redeemCodes s !! normalize_code c) as [cd|]; [|auto].
  destruct (rc_redeemed cd); [auto|]. simpl.
  split; [|auto]. intros k Hk. rewrite lookup_insert_ne by congruence. reflexivity.
Qed.

(** A verified webhook for a known order changes only that order's [status] and [actuallyPaid] fields, no other order and no redeem code, and the catalog only when the status is a paid one. *)
Theorem ipn_update_frame (cfg : config) (en : env) (ev : event) (s : state)
    (payload : jsval) (k : string) (st ap pa : jsval) (o : order) :
  httpMethod ev = "POST" -> resolve_path ev = "ipn" -> ev_body ev = Some payload ->
  ipn_verify cfg ev payload s = (Ok true, s) ->
  get_prop payload "order_id" = Some (JStr k) -> get_prop payload "payment_status" = Some st ->
  get_prop payload "actually_paid" = Some ap -> get_prop payload "pay_amount" = Some pa ->
  orders s !! k = Some o ->
  let s' := snd (step cfg en ev s) in
  (exists o', orders s' !! k = Some o' /\
     forall f, f <> "status" -> f <> "actuallyPaid" -> assoc f o' = assoc f o) /\
  (forall k', k' <> k -> orders s' !! k' = orders s !! k') /\
  redeemCodes s' = redeemCodes s /\
  (is_paid_status st = false -> players s' = players s).
Proof.
  intros Hm Hp Hb Hv Ho Hs Ha Hpa Hk s'. subst s'.
  rewrite (ipn_step cfg en ev s payload (JStr k) st ap pa Hm Hp Hb Hv Ho Hs Ha Hpa). cbn [snd].
  rewrite (orders_apply_ipn k st ap s o Hk). split; [|split; [|split]].
  - eexists; split; [apply lookup_insert_eq|].
    intros f H1 H2. rewrite !assoc_set_prop_ne by assumption. reflexivity.
  - intros k' Hk'. rewrite lookup_insert_ne by congruence. reflexivity.
  - apply redeemCodes_apply_ipn.
  - intros Hn. rewrite (players_apply_ipn k st ap s o Hk), Hn. reflexivity.
Qed.

(** ** Transaction ids, outbound requests, paths and round trips *)

Lemma upper_hex_digit (n : Z) : (0 <= n < 16)%Z -> is_upper_hex (upper_char (Sha512.hex_digit n)) = true.
Proof.
  intros H.
  assert (Hall : forallb (fun k => is_upper_hex (upper_char (Sha512.hex_digit (Z.of_nat k))))
                         (List.seq 0 16) = true) by reflexivity.
  rewrite List.forallb_forall in Hall.
  replace n with (Z.of_nat (Z.to_nat n)) by lia.
  apply Hall. apply List.in_seq. lia.
Qed.

Lemma hex_digit_ascii (n : Z) : (0 <= n < 16)%Z -> (nat_of_ascii (Sha512.hex_digit n) < 128)%nat.
Proof.
  intros H.
  assert (Hall : forallb (fun k => Nat.ltb (nat_of_ascii (Sha512.hex_digit (Z.of_nat k))) 128)
                         (List.seq 0 16) = true) by reflexivity.
  rewrite List.forallb_forall in Hall.
  replace n with (Z.of_nat (Z.to_nat n)) by lia.
  apply Nat.ltb_lt, Hall, List.in_seq. lia.
Qed.

Lemma upper_hex_of_bytes (bs : list Z) :
  Forall is_byte bs ->
  String.length (js_to_upper (hex_of_bytes bs)) = (2 * length bs)%nat /\
  forallb is_upper_hex (list_ascii_of_string (js_to_upper (hex_of_bytes bs))) = true.
Proof.
  induction 1 as [|b bs Hb _ [IH1 IH2]]; [split; reflexivity|].
  unfold is_byte in Hb. unfold hex_of_bytes in *.
  change (Sha512.hex_of_bytes (b :: bs)) with
    (String (Sha512.hex_digit (b / 16)) (String (Sha512.hex_digit (b mod 16)) (Sha512.hex_of_bytes bs))).
  assert (D1 : (0 <= b / 16 < 16)%Z) by (split; [apply Z.div_pos | apply Z.div_lt_upper_bound]; lia).
  assert (D2 : (0 <= b mod 16 < 16)%Z) by (apply Z.mod_pos_bound; lia).
  rewrite !js_to_upper_cons by (apply hex_digit_ascii; assumption).
  cbn [String.length list_ascii_of_string forallb length].
  split; [rewrite IH1; lia|].
  rewrite (upper_hex_digit (b / 16)) by exact D1.
  rewrite (upper_hex_digit (b mod 16)) by exact D2.
  exact IH2.
Qed.

(** With four random bytes, the transaction id is [LN-], the decimal clock, [-] and eight uppercase hex digits. *)
Theorem tx_id_format (en : env) :
  length (random4 en) = 4%nat -> Forall is_byte (random4 en) ->
  exists t, make_tx_id en = "LN-" ++ dec (now_ms en) ++ "-" ++ t /\
            String.length t = 8%nat /\ forallb is_upper_hex (list_ascii_of_string t) = true.
Proof.
  intros Hl Hb. destruct (upper_hex_of_bytes _ Hb) as [H1 H2].
  exists (js_to_upper (hex_of_bytes (random4 en))).
  split; [reflexivity|]. rewrite H1, Hl. auto.
Qed.

Lemma split_slash_cons (c : ascii) (s : string) :
  c <> "/"%char ->
  split_slash (String c s) = match split_slash s with
                             | w :: ws => String c w :: ws
                             | [] => [String c EmptyString]
                             end.
Proof. intros H. destruct c as [[] [] [] [] [] [] [] []]; try reflexivity; congruence. Qed.

Lemma split_slash_segment (id rest : string) :
  no_slash id = true ->
  split_slash id = [id] /\ split_slash (id ++ "/" ++ rest) = id :: split_slash rest.
Proof.
  induction id as [|c id IH]; [split; reflexivity|].
  unfold no_slash. cbn [list_ascii_of_string forallb]. intros H.
  apply andb_prop in H as [Hc H]. destruct (IH H) as [IH1 IH2].
  assert (Hc' : c <> "/"%char) by (intros ->; discriminate).
  change (String c id ++ "/" ++ rest) with (String c (id ++ "/" ++ rest)).
  rewrite !split_slash_cons by exact Hc'. rewrite IH1, IH2. split; reflexivity.
Qed.

Lemma empty_append (s : string) : "" ++ s = s.
Proof. reflexivity. Qed.

Lemma step_get cfg en ev s :
  httpMethod ev = "GET" ->
  step cfg en ev s = settle (route cfg en ev "GET" (resolve_path ev) s).
Proof. intros Hm. rewrite step_not_options by (rewrite Hm; discriminate). rewrite Hm. reflexivity. Qed.

Lemma step_payment_status cfg en ev s x :
  httpMethod ev = "GET" -> resolve_path ev = "payment-status/" ++ x ->
  step cfg en ev s = settle (payment_status cfg en ("payment-status/" ++ x) s).
Proof.
  intros Hm Hp. rewrite (step_get cfg en ev s Hm), Hp.
  unfold route, starts_with. cbv zeta. rewrite prefix_app. reflexivity.
Qed.

Lemma step_min_amount cfg en ev s x :
  httpMethod ev = "GET" -> resolve_path ev = "min-amount/" ++ x ->
  step cfg en ev s = settle (passthrough cfg en
    ("/min-amount?currency_from=" ++ second_segment ("min-amount/" ++ x) ++ "&currency_to=sar") s).
Proof.
  intros Hm Hp. rewrite (step_get cfg en ev s Hm), Hp.
  unfold route, starts_with. cbv zeta. rewrite prefix_app. reflexivity.
Qed.

(** The one request [nowpaymentsRequest] makes, whatever the reply. *)
Lemma nowpayments_calls cfg en e m b s :
  env_set (NOWPAYMENTS_API_KEY cfg) = true ->
  gw_calls (snd (nowpaymentsRequest cfg en e m b s))
    = (gw_calls s ++ [{| gr_method := m; gr_url := NOWPAYMENTS_BASE cfg ++ e; gr_body := b |}])%list.
Proof.
  intros Hk. unfold nowpaymentsRequest. rewrite Hk. cbv beta iota. simpl negb. cbv iota.
  unfold bind, modify, prop, ret, throw.
  destruct (gateway en _) as [m'|st [d|]]; try reflexivity.
  destruct (_ && _); [reflexivity|]. destruct (get_prop d "message"); reflexivity.
Qed.

(** [GET payment-status/<id>] and [GET min-amount/<id>] (optionally followed by more segments) make exactly one NOWPayments request, built from the first segment [id]. *)
Theorem path_segment_requests (cfg : config) (en : env) (ev : event) (s : state)
    (id rest : string) :
  env_set (NOWPAYMENTS_API_KEY cfg) = true -> httpMethod ev = "GET" -> no_slash id = true ->
  (resolve_path ev = "payment-status/" ++ id \/
   resolve_path ev = "payment-status/" ++ id ++ "/" ++ rest ->
   gw_calls (snd (step cfg en ev s))
     = (gw_calls s ++ [{| gr_method := "GET"; gr_url := NOWPAYMENTS_BASE cfg ++ "/payment/" ++ id;
                           gr_body := None |}])%list) /\
  (resolve_path ev = "min-amount/" ++ id \/
   resolve_path ev = "min-amount/" ++ id ++ "/" ++ rest ->
   gw_calls (snd (step cfg en ev s))
     = (gw_calls s ++ [{| gr_method := "GET";
                           gr_url := NOWPAYMENTS_BASE cfg ++ "/min-amount?currency_from=" ++ id
                                     ++ "&currency_to=sar";
                           gr_body := None |}])%list).
Proof.
  intros Hk Hm Hid. destruct (split_slash_segment id rest Hid) as [S1 S2].
  assert (Seg : forall p, p = id \/ p = id ++ "/" ++ rest ->
            forall pre, pre = "payment-status/" \/ pre = "min-amount/" ->
            second_segment (pre ++ p) = id).
  { intros p Hp pre Hpre. unfold second_segment.
    destruct Hpre as [->| ->]; destruct Hp as [->| ->]; simpl; rewrite empty_append;
      [rewrite S1 | rewrite S2 | rewrite S1 | rewrite S2]; reflexivity. }
  split; intros Hp.
  - destruct Hp as [Hp|Hp]; rewrite (step_payment_status cfg en ev s _ Hm Hp).
    all: unfold payment_status; rewrite Seg by auto.
    all: unfold bind at 1; rewrite <- (nowpayments_calls cfg en _ "GET" None s Hk).
    all: destruct (nowpaymentsRequest _ _ _ _ _ s) as [[d|e] s1]; try reflexivity.
    all: unfold bind, prop, ret, throw; repeat (destruct (get_prop d _); cbv beta iota); reflexivity.
  - destruct Hp as [Hp|Hp]; rewrite (step_min_amount cfg en ev s _ Hm Hp).
    all: unfold passthrough; rewrite Seg by auto.
    all: unfold bind at 1; rewrite <- (nowpayments_calls cfg en _ "GET" None s Hk).
    all: destruct (nowpaymentsRequest _ _ _ _ _ s) as [[d|e] s1]; reflexivity.
Qed.

Lemma step_route_get cfg en ev s p :
  httpMethod ev = "GET" -> resolve_path ev = p ->
  step cfg en ev s = settle (route cfg en ev "GET" p s).
Proof. intros Hm Hp. rewrite (step_get cfg en ev s Hm), Hp. reflexivity. Qed.

(** [GET estimate] without the [amount] and [currency] query parameters sends the literal text [undefined] for both to NOWPayments. *)
Theorem estimate_missing_query (cfg : config) (en : env) (ev : event) (s : state) :
  env_set (NOWPAYMENTS_API_KEY cfg) = true -> httpMethod ev = "GET" ->
  resolve_path ev = "estimate" ->
  (ev_query ev = None \/
   exists q, ev_query ev = Some q /\ lookup_str "amount" q = None /\ lookup_str "currency" q = None) ->
  gw_calls (snd (step cfg en ev s))
    = (gw_calls s ++ [{| gr_method := "GET";
                          gr_url := NOWPAYMENTS_BASE cfg
                                    ++ "/estimate?amount=undefined&currency_from=sar&currency_to=undefined";
                          gr_body := None |}])%list.
Proof.
  intros Hk Hm Hp Hq. rewrite (step_route_get cfg en ev s _ Hm Hp).
  assert (Ha : query_param ev "amount" = "undefined" /\ query_param ev "currency" = "undefined").
  { unfold query_param. destruct Hq as [-> | [q [-> [H1 H2]]]]; [split; reflexivity|].
    rewrite H1, H2. split; reflexivity. }
  destruct Ha as [Ha Hc].
  change (route cfg en ev "GET" "estimate")
    with (passthrough cfg en ("/estimate?amount=" ++ query_param ev "amount"
                              ++ "&currency_from=sar&currency_to=" ++ query_param ev "currency")).
  rewrite Ha, Hc. unfold passthrough, bind at 1.
  rewrite <- (nowpayments_calls cfg en _ "GET" None s Hk).
  destruct (nowpaymentsRequest _ _ _ _ _ s) as [[d|e] s1]; reflexivity.
Qed.

(** [GET status] always answers 200 with [server: ok], whatever NOWPayments does. *)
Theorem status_always_ok (cfg : config) (en : env) (ev : event) (s : state) :
  httpMethod ev = "GET" -> resolve_path ev = "status" ->
  exists v, fst (step cfg en ev s) = respond 200 (JObj [("server", JStr "ok"); ("nowpayments", v)]).
Proof.
  intros Hm Hp. rewrite (step_route_get cfg en ev s _ Hm Hp).
  change (route cfg en ev "GET" "status") with (api_status cfg en).
  unfold api_status, try_catch, bind at 1.
  destruct (nowpaymentsRequest _ _ _ _ _ s) as [[d|e] s1]; eexists; reflexivity.
Qed.

(** [GET currencies] answers 200 exactly when the API key is set and NOWPayments replies 2xx with a JSON body, which it then passes through; otherwise it answers 500. *)
Theorem currencies_status (cfg : config) (en : env) (ev : event) (s : state) :
  httpMethod ev = "GET" -> resolve_path ev = "currencies" ->
  let req := {| gr_method := "GET"; gr_url := NOWPAYMENTS_BASE cfg ++ "/currencies";
                gr_body := None |} in
  (statusCode (fst (step cfg en ev s)) = 200%Z <->
     env_set (NOWPAYMENTS_API_KEY cfg) = true /\
     exists st d, gateway en req = GwReply st (Some d) /\ (200 <= st <= 299)%Z) /\
  (statusCode (fst (step cfg en ev s)) = 200%Z \/ statusCode (fst (step cfg en ev s)) = 500%Z) /\
  (forall st d, env_set (NOWPAYMENTS_API_KEY cfg) = true ->
     gateway en req = GwReply st (Some d) -> (200 <= st <= 299)%Z ->
     fst (step cfg en ev s) = respond 200 d).
Proof.
  intros Hm Hp req. rewrite (step_route_get cfg en ev s _ Hm Hp).
  change (route cfg en ev "GET" "currencies") with (passthrough cfg en "/currencies").
  unfold passthrough, nowpaymentsRequest.
  destruct (env_set (NOWPAYMENTS_API_KEY cfg)) eqn:Hk; simpl negb; cbv iota.
  2:{ split; [|split; [right; reflexivity | intros; discriminate]].
      split; [discriminate | intros [H _]; discriminate]. }
  unfold bind, modify, prop, ret, throw. fold req.
  destruct (gateway en req) as [m|st [d|]] eqn:Hg.
  - split; [|split; [right; reflexivity | intros; discriminate]].
    split; [discriminate | intros [_ (st & d & H & _)]; discriminate].
  - destruct ((200 <=? st) && (st <=? 299))%Z eqn:Hst.
    + apply andb_prop in Hst as [H1 H2]. apply Z.leb_le in H1, H2.
      split; [|split; [left; reflexivity|]].
      * split; [intros _; split; [reflexivity | eauto] | intros _; reflexivity].
      * intros st' d' _ [= <- <-] _. reflexivity.
    + assert (Hn : ~ (200 <= st <= 299)%Z).
      { intros [H1 H2]. apply Z.leb_le in H1, H2. rewrite H1, H2 in Hst. discriminate. }
      destruct (get_prop d "message") as [m|]; cbv beta iota.
      all: split; [split; [discriminate | intros [_ (st' & d' & H & Hr)]; injection H as <- <-; contradiction]
                  | split; [right; reflexivity | intros st' d' _ H Hr; injection H as <- <-; contradiction]].
  - split; [|split; [right; reflexivity | intros; discriminate]].
    split; [discriminate | intros [_ (st' & d & H & _)]; discriminate].
Qed.

Lemma index_cons_nomatch (p : string) (c : ascii) (t : string) :
  String.prefix p (String c t) = false ->
  String.index 0 p (String c t) = option_map S (String.index 0 p t).
Proof.
  intros H.
  change (String.index 0 p (String c t)) with
    (if String.prefix p (String c t) then Some 0%nat
     else match String.index 0 p t with Some n => Some (S n) | None => None end).
  rewrite H. destruct (String.index 0 p t); reflexivity.
Qed.

(** A route under [/api/] and the same route under [/.netlify/functions/api/] resolve to the same path, the route with its slashes stripped. *)
Theorem api_paths_resolve_alike (ev : event) (r : string) :
  (ev_path ev = Some ("/api/" ++ r) ->
   String.index 0 "/.netlify/functions/api" ("/" ++ r) = None ->
   resolve_path ev = strip_slashes r) /\
  (ev_path ev = Some ("/.netlify/functions/api/" ++ r) -> String.prefix "api/" r = false ->
   resolve_path ev = strip_slashes r).
Proof.
  split; intros Hp Hr; unfold resolve_path; rewrite Hp; unfold str_or.
  - change (String.eqb ("/api/" ++ r) "") with false. cbv iota.
    assert (Hi : replace_first "/.netlify/functions/api" "" ("/api/" ++ r) = "/api/" ++ r).
    { assert (Hx : String.index 0 "/.netlify/functions/api" ("/api/" ++ r) = None).
      { change ("/api/" ++ r) with (String "/" (String "a" (String "p" (String "i" ("/" ++ r))))).
        rewrite !index_cons_nomatch by reflexivity. rewrite Hr. reflexivity. }
      unfold replace_first. rewrite Hx. reflexivity. }
    rewrite Hi. unfold replace_anchored. rewrite prefix_app.
    rewrite substring_after, append_length.
    replace (String.length "/api/" + String.length r - String.length "/api/")%nat
      with (String.length r) by lia.
    rewrite substring_all. reflexivity.
  - change (String.eqb ("/.netlify/functions/api/" ++ r) "") with false. cbv iota.
    change ("/.netlify/functions/api/" ++ r) with ("/.netlify/functions/api" ++ ("/" ++ r)).
    rewrite replace_first_prefix. unfold replace_anchored.
    change (String.prefix "/api/" ("/" ++ r)) with (String.prefix "api/" r).
    rewrite Hr. reflexivity.
Qed.

Lemma create_payment_success cfg en ev s r s1 :
  create_payment cfg en ev s = (Ok r, s1) -> statusCode r = 200%Z ->
  exists oid rec, get_prop (body r) "orderId" = Some (JStr oid) /\
    orders s1 !! oid = Some rec /\ assoc "orderId" rec = Some (JStr oid).
Proof.
  unfold create_payment, customer_missing, parse_body, bind, prop, ret, throw, get_state, modify.
  intros H H200. repeat (case_match; simplify_eq/=); try discriminate.
  eexists _, _; split_and!; [reflexivity | apply lookup_insert_eq | reflexivity].
Qed.

Lemma create_invoice_success cfg en ev s r s1 :
  create_invoice cfg en ev s = (Ok r, s1) -> statusCode r = 200%Z ->
  exists oid rec, get_prop (body r) "orderId" = Some (JStr oid) /\
    orders s1 !! oid = Some rec /\ assoc "orderId" rec = Some (JStr oid).
Proof.
  unfold create_invoice, parse_body, bind, prop, ret, throw, get_state, modify.
  intros H H200. repeat (case_match; simplify_eq/=); try discriminate.
  eexists _, _; split_and!; [reflexivity | apply lookup_insert_eq | reflexivity].
Qed.

Lemma step_get_order cfg en ev s x :
  httpMethod ev = "GET" -> resolve_path ev = "order/" ++ x ->
  step cfg en ev s = settle (get_order ("order/" ++ x) s).
Proof.
  intros Hm Hp. rewrite (step_route_get cfg en ev s _ Hm Hp).
  unfold route, starts_with. simpl. rewrite prefix_app. reflexivity.
Qed.

(** After a 200 answer to create-payment or create-invoice, [GET order/<orderId>] with the returned [orderId] answers 200 with the stored order, whose [orderId] field is that id. *)
Theorem created_order_readable (cfg : config) (en : env) (ev : event) (s : state) :
  httpMethod ev = "POST" ->
  resolve_path ev = "create-payment" \/ resolve_path ev = "create-invoice" ->
  statusCode (fst (step cfg en ev s)) = 200%Z ->
  exists oid rec,
    get_prop (body (fst (step cfg en ev s))) "orderId" = Some (JStr oid) /\
    assoc "orderId" rec = Some (JStr oid) /\
    forall en' ev', httpMethod ev' = "GET" -> resolve_path ev' = "order/" ++ oid ->
      step cfg en' ev' (snd (step cfg en ev s)) = (respond 200 (JObj rec), snd (step cfg en ev s)).
Proof.
  intros Hm Hp H200.
  assert (Hc : exists r s1, step cfg en ev s = (r, s1) /\ statusCode r = 200%Z /\
             exists oid rec, get_prop (body r) "orderId" = Some (JStr oid) /\
               orders s1 !! oid = Some rec /\ assoc "orderId" rec = Some (JStr oid)).
  { destruct Hp as [Hp|Hp];
      [ rewrite (step_create_payment cfg en ev s Hm Hp) in *
      | rewrite (step_create_invoice cfg en ev s Hm Hp) in * ];
      unfold settle in *;
      [ destruct (create_payment cfg en ev s) as [[r|e] s1] eqn:E
      | destruct (create_invoice cfg en ev s) as [[r|e] s1] eqn:E ];
      try discriminate; exists r, s1; split_and!; try reflexivity; try exact H200;
      [ exact (create_payment_success cfg en ev s r s1 E H200)
      | exact (create_invoice_success cfg en ev s r s1 E H200) ]. }
  destruct Hc as (r & s1 & Hs & _ & oid & rec & Ho & Hl & Ha). rewrite Hs. simpl.
  exists oid, rec. split_and!; [exact Ho | exact Ha |].
  intros en' ev' Hm' Hp'. rewrite (step_get_order cfg en' ev' s1 oid Hm' Hp').
  unfold get_order. rewrite replace_first_prefix. unfold bind, get_state, ret, settle.
  rewrite Hl. reflexivity.
Qed.

(** After a successful redeem, [GET redeem/<code>] for any spelling of the code that normalizes to the same key reports the card and [redeemed: true]. *)
Theorem redeem_then_info cfg en ev s b c la em :
  httpMethod ev = "POST" -> resolve_path ev = "redeem" -> ev_body ev = Some b ->
  get_prop b "code" = Some (JStr c) -> c <> "" ->
  get_prop b "lightningAddress" = Some la -> truthy la = true ->
  get_prop b "email" = Some em ->
  statusCode (fst (step cfg en ev s)) = 200%Z ->
  exists cd, redeemCodes s !! normalize_code c = Some cd /\
    forall en' ev' x, httpMethod ev' = "GET" -> resolve_path ev' = "redeem/" ++ x ->
      normalize_code x = normalize_code c ->
      fst (step cfg en' ev' (snd (step cfg en ev s))) =
        respond 200 (JObj [("playerName", JStr (rc_playerName cd));
                           ("sats", JNum (dec (rc_sats cd)));
                           ("redeemed", JBool true)]).
Proof.
  intros Hm Hp Hb Hc Hne Hla Ht Hem H200.
  rewrite (redeem_step cfg en ev s b c la em Hm Hp Hb Hc Hne Hla Ht Hem) in *.
  destruct (redeemCodes s !! normalize_code c) as [cd|] eqn:E; [|discriminate].
  destruct (rc_redeemed cd) eqn:R; [unfold already_redeemed in H200; discriminate|].
  exists cd. split; [reflexivity|].
  intros en' ev' x Hm' Hp' Hx. cbn [snd].
  rewrite (step_redeem_info cfg en' ev' _ x Hm' Hp').
  unfold redeem_info. rewrite replace_first_prefix, Hx.
  unfold bind, get_state, ret, settle. cbn [redeemCodes set_codes].
  rewrite lookup_insert_eq. reflexivity.
Qed.

(** ** The further properties on sample requests *)

Lemma redeem_codes_frame_witness :
  redeemCodes (snd (step cfg_demo en_demo (ev_create "create-payment" "1") state0))
    = redeemCodes state0.
Proof.
  apply (redeem_codes_frame cfg_demo en_demo (ev_create "create-payment" "1") state0).
  vm_compute. intros [_ H]. discriminate.
Defined.

Lemma orders_frame_witness :
  orders (snd (step cfg_demo en_demo ev_redeem_gold state0)) = orders state0.
Proof.
  apply (orders_frame cfg_demo en_demo ev_redeem_gold state0).
  vm_compute. intros [_ [H|[H|H]]]; discriminate.
Defined.

Lemma players_frame_witness :
  players (snd (step cfg_demo en_demo (ev_create "create-payment" "1") state0)) = players state0.
Proof.
  apply (players_frame cfg_demo en_demo (ev_create "create-payment" "1") state0).
  vm_compute. intros [_ H]. discriminate.
Defined.

Lemma no_api_key_no_fetch_witness :
  gw_calls (snd (run cfg_nokey [(en_demo, ev_create "create-payment" "1");
                                (en_demo, ev_get "/api/status")] state0)) = [].
Proof.
  exact (no_api_key_no_fetch cfg_nokey _ state0 ltac:(reflexivity)).
Defined.

Lemma method_fallbacks_witness :
  step cfg_demo en_demo (mk_event "DELETE" "/api/redeem" None []) state0
    = (respond 404 (JObj [("error", JStr "Route not found"); ("path", JStr "redeem");
                          ("method", JStr "DELETE")]), state0).
Proof.
  exact (proj2 (method_fallbacks cfg_demo en_demo (mk_event "DELETE" "/api/redeem" None []) state0)
    ltac:(discriminate) ltac:(discriminate) ltac:(discriminate)).
Defined.

Lemma post_body_not_object_witness :
  exists e, step cfg_demo en_demo (mk_event "POST" "/api/redeem" None []) state0
    = (on_error e, state0).
Proof.
  exact (post_body_not_object cfg_demo en_demo (mk_event "POST" "/api/redeem" None []) state0
    ltac:(reflexivity) ltac:(vm_compute; right; right; right; reflexivity)
    ltac:(left; reflexivity)).
Defined.

Lemma create_unknown_card_witness :
  step cfg_demo en_demo ev_create_string_id state0 = (err 404 "Card not found", state0).
Proof.
  exact (create_unknown_card cfg_demo en_demo ev_create_string_id state0
    [("playerId", JStr "1")] ltac:(reflexivity) ltac:(vm_compute; left; reflexivity)
    ltac:(reflexivity) ltac:(intros r H; vm_compute in H; discriminate)).
Defined.

Lemma create_payment_validation_witness :
  step cfg_demo en_demo ev_create_no_currency state0 = (err 400 "Currency is required", state0).
Proof.
  exact (proj1 (create_payment_validation cfg_demo en_demo ev_create_no_currency state0
    [("playerId", JNum "1")]
    (mk_player 1 "كريستيانو رونالدو" "Cristiano Ronaldo" 189999 "0.75" false)
    ltac:(reflexivity) ltac:(vm_compute; reflexivity) ltac:(reflexivity)
    ltac:(vm_compute; reflexivity) ltac:(reflexivity)) ltac:(reflexivity)).
Defined.

Lemma redeem_non_string_code_witness :
  exists e, step cfg_demo en_demo ev_redeem_number_code state0 = (on_error e, state0).
Proof.
  exact (redeem_non_string_code cfg_demo en_demo ev_redeem_number_code state0
    (JObj [("code", JNum "2025"); ("lightningAddress", JStr "x@getalby.com")])
    (JNum "2025") (JStr "x@getalby.com")
    ltac:(reflexivity) ltac:(vm_compute; reflexivity) ltac:(reflexivity)
    ltac:(reflexivity) ltac:(reflexivity) ltac:(intros c; discriminate)
    ltac:(reflexivity) ltac:(reflexivity)).
Defined.

Lemma redeem_touches_one_code_witness :
  redeemCodes (snd (step cfg_demo en_demo ev_redeem_gold state0)) !! "NASSR-MANE-STAR-2025"
    = redeemCodes state0 !! "NASSR-MANE-STAR-2025".
Proof.
  exact (proj1 (redeem_touches_one_code cfg_demo en_demo ev_redeem_gold state0
    (JObj [("code", JStr "NASSR-R7CR-GOLD-2025"); ("lightningAddress", JStr "x@getalby.com")])
    "NASSR-R7CR-GOLD-2025" (JStr "x@getalby.com") JUndef
    ltac:(reflexivity) ltac:(vm_compute; reflexivity) ltac:(reflexivity)
    ltac:(reflexivity) ltac:(discriminate) ltac:(reflexivity) ltac:(reflexivity)
    ltac:(reflexivity)) "NASSR-MANE-STAR-2025" ltac:(vm_compute; discriminate)).
Defined.

Lemma ipn_update_frame_witness :
  redeemCodes (snd (step cfg_demo en_demo (ev_ipn payload_finished None) state_with_order))
    = redeemCodes state_with_order.
Proof.
  exact (proj1 (proj2 (proj2 (ipn_update_frame cfg_demo en_demo (ev_ipn payload_finished None)
    state_with_order (JObj payload_finished) "NASSR-1729000000123-1"
    (JStr "finished") (JNum "0.0123") (JNum "0.0123") order_demo
    ltac:(reflexivity) ltac:(vm_compute; reflexivity) ltac:(reflexivity)
    ltac:(vm_compute; reflexivity) ltac:(reflexivity) ltac:(reflexivity) ltac:(reflexivity)
    ltac:(reflexivity) ltac:(vm_compute; reflexivity))))).
Defined.

Lemma tx_id_format_witness :
  exists t, make_tx_id en_demo = "LN-" ++ dec (now_ms en_demo) ++ "-" ++ t /\
            String.length t = 8%nat /\ forallb is_upper_hex (list_ascii_of_string t) = true.
Proof.
  exact (tx_id_format en_demo ltac:(reflexivity)
    ltac:(repeat constructor; unfold is_byte; lia)).
Defined.

Lemma path_segment_requests_witness :
  gw_calls (snd (step cfg_demo en_demo (ev_get "/api/payment-status/5077125051") state0))
    = [{| gr_method := "GET";
          gr_url := NOWPAYMENTS_BASE cfg_demo ++ "/payment/" ++ "5077125051";
          gr_body := None |}].
Proof.
  exact (proj1 (path_segment_requests cfg_demo en_demo (ev_get "/api/payment-status/5077125051")
    state0 "5077125051" "" ltac:(reflexivity) ltac:(reflexivity) ltac:(reflexivity))
    ltac:(left; vm_compute; reflexivity)).
Defined.

Lemma estimate_missing_query_witness :
  gw_calls (snd (step cfg_demo en_demo (ev_get "/api/estimate") state0))
    = [{| gr_method := "GET";
          gr_url := NOWPAYMENTS_BASE cfg_demo
                    ++ "/estimate?amount=undefined&currency_from=sar&currency_to=undefined";
          gr_body := None |}].
Proof.
  exact (estimate_missing_query cfg_demo en_demo (ev_get "/api/estimate") state0
    ltac:(reflexivity) ltac:(reflexivity) ltac:(vm_compute; reflexivity) ltac:(left; reflexivity)).
Defined.

Lemma status_always_ok_witness :
  exists v, fst (step cfg_nokey en_demo (ev_get "/api/status") state0)
    = respond 200 (JObj [("server", JStr "ok"); ("nowpayments", v)]).
Proof.
  exact (status_always_ok cfg_nokey en_demo (ev_get "/api/status") state0
    ltac:(reflexivity) ltac:(vm_compute; reflexivity)).
Defined.

Lemma currencies_status_witness :
  fst (step cfg_demo en_demo (ev_get "/api/currencies") state0)
    = respond 200 (JObj [("message", JStr "OK")]).
Proof.
  exact (proj2 (proj2 (currencies_status cfg_demo en_demo (ev_get "/api/currencies") state0
    ltac:(reflexivity) ltac:(vm_compute; reflexivity)))
    200%Z (JObj [("message", JStr "OK")]) ltac:(reflexivity) ltac:(vm_compute; reflexivity)
    ltac:(lia)).
Defined.

Lemma api_paths_resolve_alike_witness :
  resolve_path (ev_get "/api/redeem/ABC") = strip_slashes "redeem/ABC".
Proof.
  exact (proj1 (api_paths_resolve_alike (ev_get "/api/redeem/ABC") "redeem/ABC")
    ltac:(reflexivity) ltac:(vm_compute; reflexivity)).
Defined.

Lemma created_order_readable_witness :
  exists oid rec,
    get_prop (body (fst (step cfg_demo en_demo (ev_create "create-payment" "1") state0)))
      "orderId" = Some (JStr oid) /\
    assoc "orderId" rec = Some (JStr oid) /\
    forall en' ev', httpMethod ev' = "GET" -> resolve_path ev' = "order/" ++ oid ->
      step cfg_demo en' ev' state_with_order = (respond 200 (JObj rec), state_with_order).
Proof.
  exact (created_order_readable cfg_demo en_demo (ev_create "create-payment" "1") state0
    ltac:(reflexivity) ltac:(left; vm_compute; reflexivity) ltac:(vm_compute; reflexivity)).
Defined.

Lemma redeem_then_info_witness :
  exists cd, redeemCodes state0 !! normalize_code "NASSR-R7CR-GOLD-2025" = Some cd /\
    forall en' ev' x, httpMethod ev' = "GET" -> resolve_path ev' = "redeem/" ++ x ->
      normalize_code x = normalize_code "NASSR-R7CR-GOLD-2025" ->
      fst (step cfg_demo en' ev' state_gold_redeemed) =
        respond 200 (JObj [("playerName", JStr (rc_playerName cd));
                           ("sats", JNum (dec (rc_sats cd)));
                           ("redeemed", JBool true)]).
Proof.
  exact (redeem_then_info cfg_demo en_demo ev_redeem_gold state0
    (JObj [("code", JStr "NASSR-R7CR-GOLD-2025"); ("lightningAddress", JStr "x@getalby.com")])
    "NASSR-R7CR-GOLD-2025" (JStr "x@getalby.com") JUndef
    ltac:(reflexivity) ltac:(vm_compute; reflexivity) ltac:(reflexivity)
    ltac:(reflexivity) ltac:(discriminate) ltac:(reflexivity) ltac:(reflexivity)
    ltac:(reflexivity) ltac:(vm_compute; reflexivity)).
Defined.
